(** * DreamerV2 trainer: a shallow embedding of [dreamerv2/training/trainer.py]

    The development follows the class [Trainer]: construction and optimiser
    set-up, the hard target update, the checkpoint bundle, the world-model
    (representation) loss and the actor-critic loss over an imagined rollout.

    Numbers.  The program computes on torch float tensors.  Here a scalar is
    an exact rational ([Qc]); rounding is not modelled, so every equation
    below is an equation of exact arithmetic.

    Tensors.  A tensor of shape [T, N] or [T, N, 1] is a time-major
    [list (list Qc)]; a tensor [T, N, D] is a [list (list vec)] whose
    entries are the feature vectors.  [unsqueeze(-1)] is therefore the
    identity.  Tensors are rectangular; the element-wise operations are used
    at equal shapes only, as in the program.  Where the shapes differ torch
    raises an error or broadcasts; here the operation stops at the shorter
    operand, so a statement about a loss holds of the program only for the
    shapes named in its hypotheses.

    Ranges.  Sizes are natural numbers, and [seq_len - 1] is truncated
    subtraction: it is the program's [self.seq_len - 1] for a [seq_len] of
    at least one, as every configuration that samples sequences has.

    Gradients.  Autograd is modelled by the set of parameter groups that a
    backward pass from a tensor would reach ([grad_deps]). *)

From Stdlib Require Import QArith Qcanon Field.
From stdpp Require Import gmap strings list fin_maps.

Local Open Scope Qc_scope.

#[local] Set Warnings "-clear-no-such-hyp".

(** ** Exceptions and fallible code *)

Inductive exn : Type :=
  | NotImplementedError
  | AttributeError (attr : string)
  | KeyError (key : string)
  | RuntimeError (module : string).

Inductive result (A : Type) : Type :=
  | Ok (a : A)
  | Raise (e : exn).
Arguments Ok {A} a.
Arguments Raise {A} e.

#[global] Instance result_ret : MRet result := λ A a, Ok a.
#[global] Instance result_bind : MBind result :=
  λ A B f m, match m with Ok a => f a | Raise e => Raise e end.

(** [self.name] for an attribute that [__init__] assigns only on some paths. *)
Definition getattr {A} (name : string) (slot : option A) : result A :=
  match slot with
  | Some a => Ok a
  | None => Raise (AttributeError name)
  end.

(** ** Sub-models and their parameters *)

(** The parameter groups of the trainer, one per [nn.Module] it owns. *)
Inductive submodel : Type :=
  | pRSSM | pObsEncoder | pObsDecoder | pRewardDecoder
  | pActionModel | pValueModel | pTargetValueModel | pDiscountModel.

#[global] Instance submodel_eq_dec : EqDecision submodel.
Proof. solve_decision. Defined.

Definition submodel_code (m : submodel) : nat :=
  match m with
  | pRSSM => 0 | pObsEncoder => 1 | pObsDecoder => 2 | pRewardDecoder => 3
  | pActionModel => 4 | pValueModel => 5 | pTargetValueModel => 6
  | pDiscountModel => 7
  end%nat.

Definition submodel_of_code (n : nat) : submodel :=
  match n with
  | 0 => pRSSM | 1 => pObsEncoder | 2 => pObsDecoder | 3 => pRewardDecoder
  | 4 => pActionModel | 5 => pValueModel | 6 => pTargetValueModel
  | _ => pDiscountModel
  end%nat.

#[global] Instance submodel_countable : Countable submodel.
Proof.
  refine (inj_countable' submodel_code submodel_of_code _).
  by intros [].
Defined.

Definition all_submodels : gset submodel :=
  {[ pRSSM; pObsEncoder; pObsDecoder; pRewardDecoder;
     pActionModel; pValueModel; pTargetValueModel; pDiscountModel ]}.

Abbreviation vec := (list Qc).
Abbreviation tensor2 := (list (list Qc)).

(** A module's parameters are its [state_dict]: parameter name to the
    flattened parameter tensor. *)
Abbreviation StateDict := (gmap string (list Qc)).

(** [m.state_dict()], read as the values the parameters have at the time
    of the call.  In torch the returned tensors share storage with the live
    parameters; that sharing is not modelled, so the value is meaningful
    until the module is next updated. *)
Definition state_dict (m : StateDict) : StateDict := m.

(** [m.load_state_dict(sd)] between two networks built from the same
    arguments, as in [__init__] and [update_target]: the keys and shapes
    agree, so the strict check of torch passes and every entry of [sd] is
    copied into the parameters of [m]. *)
Definition load_state_dict (m sd : StateDict) : StateDict := sd.

(** [sd] has the keys of [m], and under each key a tensor of the same
    size: what the strict check of torch asks of a state dict. *)
Definition fits (m sd : StateDict) : Prop :=
  (length <$> m) = (length <$> sd).

#[global] Instance fits_dec (m sd : StateDict) : Decision (fits m sd).
Proof. unfold fits. apply _. Defined.

(** What a refused load leaves in the module: torch copies the entries
    whose key and size match before it raises. *)
Definition partial_copy (m sd : StateDict) : StateDict :=
  map_imap (λ k old,
              match sd !! k with
              | Some new => if decide (length new = length old)
                            then Some new else Some old
              | None => Some old
              end) m.

(** [m.load_state_dict(sd)] for a state dict that comes from outside: the
    new parameters of the module, and whether torch raised. *)
Definition load_state_dict_strict (name : string) (m sd : StateDict)
    : StateDict * result unit :=
  if decide (fits m sd)
  then (load_state_dict m sd, Ok ())
  else (partial_copy m sd, Raise (RuntimeError name)).

(** ** The trainer object *)

(** [training_config]: the dictionary of hyper-parameters, holding every
    key that [__init__] reads. *)
Record TrainingConfig : Type := {
  cfg_use_fixed_target : bool;
  cfg_use_discount_model : bool;
  cfg_use_kl_balancing : bool;
  cfg_kl_balancing_scale : Qc;
  cfg_seq_len : nat;
  cfg_batch_size : nat;
  cfg_collect_intervals : nat;
  cfg_seed_episodes : nat;
  cfg_model_learning_rate : Qc;
  cfg_actor_learning_rate : Qc;
  cfg_value_learning_rate : Qc;
  cfg_discount : Qc;
  cfg_lambda_ : Qc;
  cfg_horizon : nat;
  cfg_kl_scale : Qc;
  cfg_pcont_scale : Qc;
  cfg_actor_entropy_scale : Qc;
  cfg_grad_clip_norm : Qc;
}.

(** [optim.Adam(get_parameters(modules), lr)]: the groups it steps and the
    learning rate. *)
Record Adam : Type := { adam_params : list submodel; adam_lr : Qc }.

Record Trainer : Type := {
  RSSM : StateDict;
  ActionModel : StateDict;
  RewardDecoder : StateDict;
  ValueModel : StateDict;
  TargetValueModel : option StateDict;
  DiscountModel : option StateDict;
  ObsEncoder : StateDict;
  ObsDecoder : StateDict;
  action_size : nat;
  pixels : bool;
  use_fixed_target : bool;
  kl_balancing_scale : option Qc;
  seq_len : nat;
  batch_size : nat;
  collect_intervals : nat;
  seed_episodes : nat;
  model_lr : Qc;
  actor_lr : Qc;
  value_lr : Qc;
  discount : Qc;
  lambda_ : Qc;
  horizon : nat;
  kl_scale : Qc;
  pcont_scale : Qc;
  actor_entropy_scale : Qc;
  grad_clip_norm : Qc;
  world_list : list submodel;
  actor_list : list submodel;
  value_list : list submodel;
  actorcritic_list : list submodel;
  model_optimizer : option Adam;
  actor_optimizer : option Adam;
  value_optimizer : option Adam;
  (** the groups whose parameters currently have [requires_grad] set *)
  requires_grad : gset submodel;
}.

(** Single-field updates of [self]. *)
Definition set_TargetValueModel (v : option StateDict) (s : Trainer) : Trainer :=
  {| RSSM := RSSM s; ActionModel := ActionModel s;
     RewardDecoder := RewardDecoder s; ValueModel := ValueModel s;
     TargetValueModel := v; DiscountModel := DiscountModel s;
     ObsEncoder := ObsEncoder s; ObsDecoder := ObsDecoder s;
     action_size := action_size s; pixels := pixels s;
     use_fixed_target := use_fixed_target s;
     kl_balancing_scale := kl_balancing_scale s;
     seq_len := seq_len s; batch_size := batch_size s;
     collect_intervals := collect_intervals s;
     seed_episodes := seed_episodes s;
     model_lr := model_lr s; actor_lr := actor_lr s; value_lr := value_lr s;
     discount := discount s; lambda_ := lambda_ s; horizon := horizon s;
     kl_scale := kl_scale s; pcont_scale := pcont_scale s;
     actor_entropy_scale := actor_entropy_scale s;
     grad_clip_norm := grad_clip_norm s;
     world_list := world_list s; actor_list := actor_list s;
     value_list := value_list s; actorcritic_list := actorcritic_list s;
     model_optimizer := model_optimizer s;
     actor_optimizer := actor_optimizer s;
     value_optimizer := value_optimizer s;
     requires_grad := requires_grad s |}.

(** The sub-model stored under a checkpoint key, and its replacement. *)
Definition get_submodel (key : string) (s : Trainer) : option StateDict :=
  if decide (key = "RSSM") then Some (RSSM s)
  else if decide (key = "ObsEncoder") then Some (ObsEncoder s)
  else if decide (key = "ObsDecoder") then Some (ObsDecoder s)
  else if decide (key = "RewardDecoder") then Some (RewardDecoder s)
  else if decide (key = "ActionModel") then Some (ActionModel s)
  else if decide (key = "ValueModel") then Some (ValueModel s)
  else if decide (key = "DiscountModel") then DiscountModel s
  else None.

Definition set_submodel (key : string) (v : StateDict) (s : Trainer) : Trainer :=
  let pick (k : string) (old : StateDict) : StateDict :=
    if decide (key = k) then v else old in
  {| RSSM := pick "RSSM" (RSSM s);
     ActionModel := pick "ActionModel" (ActionModel s);
     RewardDecoder := pick "RewardDecoder" (RewardDecoder s);
     ValueModel := pick "ValueModel" (ValueModel s);
     TargetValueModel := TargetValueModel s;
     DiscountModel :=
       if decide (key = "DiscountModel") then Some v else DiscountModel s;
     ObsEncoder := pick "ObsEncoder" (ObsEncoder s);
     ObsDecoder := pick "ObsDecoder" (ObsDecoder s);
     action_size := action_size s; pixels := pixels s;
     use_fixed_target := use_fixed_target s;
     kl_balancing_scale := kl_balancing_scale s;
     seq_len := seq_len s; batch_size := batch_size s;
     collect_intervals := collect_intervals s;
     seed_episodes := seed_episodes s;
     model_lr := model_lr s; actor_lr := actor_lr s; value_lr := value_lr s;
     discount := discount s; lambda_ := lambda_ s; horizon := horizon s;
     kl_scale := kl_scale s; pcont_scale := pcont_scale s;
     actor_entropy_scale := actor_entropy_scale s;
     grad_clip_norm := grad_clip_norm s;
     world_list := world_list s; actor_list := actor_list s;
     value_list := value_list s; actorcritic_list := actorcritic_list s;
     model_optimizer := model_optimizer s;
     actor_optimizer := actor_optimizer s;
     value_optimizer := value_optimizer s;
     requires_grad := requires_grad s |}.

Definition set_optim (wl al vl acl : list submodel) (mo ao vo : Adam)
    (s : Trainer) : Trainer :=
  {| RSSM := RSSM s; ActionModel := ActionModel s;
     RewardDecoder := RewardDecoder s; ValueModel := ValueModel s;
     TargetValueModel := TargetValueModel s; DiscountModel := DiscountModel s;
     ObsEncoder := ObsEncoder s; ObsDecoder := ObsDecoder s;
     action_size := action_size s; pixels := pixels s;
     use_fixed_target := use_fixed_target s;
     kl_balancing_scale := kl_balancing_scale s;
     seq_len := seq_len s; batch_size := batch_size s;
     collect_intervals := collect_intervals s;
     seed_episodes := seed_episodes s;
     model_lr := model_lr s; actor_lr := actor_lr s; value_lr := value_lr s;
     discount := discount s; lambda_ := lambda_ s; horizon := horizon s;
     kl_scale := kl_scale s; pcont_scale := pcont_scale s;
     actor_entropy_scale := actor_entropy_scale s;
     grad_clip_norm := grad_clip_norm s;
     world_list := wl; actor_list := al;
     value_list := vl; actorcritic_list := acl;
     model_optimizer := Some mo;
     actor_optimizer := Some ao;
     value_optimizer := Some vo;
     requires_grad := requires_grad s |}.

(** ** Construction *)

(** [optim_initialize]: the list literal for [world_list] reads
    [self.DiscountModel], whether or not [__init__] assigned it. *)
Definition optim_initialize (self : Trainer) : result Trainer :=
  _ ← getattr "DiscountModel" (DiscountModel self);
  let world := [pObsEncoder; pRSSM; pRewardDecoder; pObsDecoder; pDiscountModel] in
  let actor := [pActionModel] in
  value ← (if use_fixed_target self
           then _ ← getattr "TargetValueModel" (TargetValueModel self);
                mret ([pValueModel] ++ [pTargetValueModel])
           else mret [pValueModel]);
  let actorcritic := [pActionModel; pValueModel] in
  mret (set_optim world actor value actorcritic
          {| adam_params := world; adam_lr := model_lr self |}
          {| adam_params := actor; adam_lr := actor_lr self |}
          {| adam_params := value; adam_lr := value_lr self |}
          self).

(** [Trainer.__init__].  [fresh m] is the state of module [m] as torch
    initialises it; the size and layer arguments only fix the
    architectures and do not appear. *)
Definition __init__ (fresh : submodel → StateDict) (action_size_ : nat)
    (training_config : TrainingConfig) (pixels_ : bool) : result Trainer :=
  let rssm := fresh pRSSM in
  let action_model := fresh pActionModel in
  let reward_decoder := fresh pRewardDecoder in
  let value_model := fresh pValueModel in
  let target :=
    if cfg_use_fixed_target training_config
    then Some (load_state_dict (fresh pTargetValueModel) (state_dict value_model))
    else None in
  let discount_model :=
    if cfg_use_discount_model training_config
    then Some (fresh pDiscountModel)
    else None in
  '(obs_encoder, obs_decoder) ←
    (if negb pixels_
     then mret (fresh pObsEncoder, fresh pObsDecoder)
     else Raise NotImplementedError);
  optim_initialize
    {| RSSM := rssm; ActionModel := action_model;
       RewardDecoder := reward_decoder; ValueModel := value_model;
       TargetValueModel := target; DiscountModel := discount_model;
       ObsEncoder := obs_encoder; ObsDecoder := obs_decoder;
       action_size := action_size_; pixels := pixels_;
       use_fixed_target := cfg_use_fixed_target training_config;
       kl_balancing_scale :=
         if cfg_use_kl_balancing training_config
         then Some (cfg_kl_balancing_scale training_config)
         else None;
       seq_len := cfg_seq_len training_config;
       batch_size := cfg_batch_size training_config;
       collect_intervals := cfg_collect_intervals training_config;
       seed_episodes := cfg_seed_episodes training_config;
       model_lr := cfg_model_learning_rate training_config;
       actor_lr := cfg_actor_learning_rate training_config;
       value_lr := cfg_value_learning_rate training_config;
       discount := cfg_discount training_config;
       lambda_ := cfg_lambda_ training_config;
       horizon := cfg_horizon training_config;
       kl_scale := cfg_kl_scale training_config;
       pcont_scale := cfg_pcont_scale training_config;
       actor_entropy_scale := cfg_actor_entropy_scale training_config;
       grad_clip_norm := cfg_grad_clip_norm training_config;
       world_list := []; actor_list := [];
       value_list := []; actorcritic_list := [];
       model_optimizer := None; actor_optimizer := None;
       value_optimizer := None;
       requires_grad := all_submodels |}.

(** ** Target update and checkpoints *)

Definition update_target (self : Trainer) : result Trainer :=
  target ← getattr "TargetValueModel" (TargetValueModel self);
  mret (set_TargetValueModel
          (Some (load_state_dict target (state_dict (ValueModel self)))) self).

Definition _actor_loss (self : Trainer) : result Qc := Raise NotImplementedError.

Definition _value_loss (self : Trainer) : result Qc := Raise NotImplementedError.

Definition save_model (self : Trainer) (save_name : string) : result unit :=
  Raise NotImplementedError.

Definition get_save_dict (self : Trainer) : result (gmap string StateDict) :=
  discount_model ← getattr "DiscountModel" (DiscountModel self);
  mret (<["RSSM" := state_dict (RSSM self)]>
        (<["ObsEncoder" := state_dict (ObsEncoder self)]>
        (<["ObsDecoder" := state_dict (ObsDecoder self)]>
        (<["RewardDecoder" := state_dict (RewardDecoder self)]>
        (<["ActionModel" := state_dict (ActionModel self)]>
        (<["ValueModel" := state_dict (ValueModel self)]>
        (<["DiscountModel" := state_dict discount_model]> ∅))))))).

(** [saved_dict[key]] *)
Definition getitem (saved_dict : gmap string StateDict) (key : string)
    : result StateDict :=
  match saved_dict !! key with
  | Some v => Ok v
  | None => Raise (KeyError key)
  end.

(** One statement [self.<key>.load_state_dict(saved_dict[<key>])].  The
    object is mutated in place, so the state of [self] is threaded through
    and survives an exception. *)
Definition load_one (key : string) (saved_dict : gmap string StateDict)
    (st : Trainer * result unit) : Trainer * result unit :=
  match st with
  | (self, Raise e) => (self, Raise e)
  | (self, Ok _) =>
      match get_submodel key self with
      | None => (self, Raise (AttributeError key))
      | Some m =>
          match getitem saved_dict key with
          | Raise e => (self, Raise e)
          | Ok sd =>
              let '(m', outcome) := load_state_dict_strict key m sd in
              (set_submodel key m' self, outcome)
          end
      end
  end.

Definition load_save_dict (self : Trainer) (saved_dict : gmap string StateDict)
    : Trainer * result unit :=
  let st := (self, Ok ()) in
  let st := load_one "RSSM" saved_dict st in
  let st := load_one "ObsEncoder" saved_dict st in
  let st := load_one "ObsDecoder" saved_dict st in
  let st := load_one "RewardDecoder" saved_dict st in
  let st := load_one "ActionModel" saved_dict st in
  let st := load_one "ValueModel" saved_dict st in
  let st := load_one "DiscountModel" saved_dict st in
  st.

(** The order in which [load_save_dict] restores the sub-models. *)
Definition load_order : list string :=
  ["RSSM"; "ObsEncoder"; "ObsDecoder"; "RewardDecoder"; "ActionModel";
   "ValueModel"; "DiscountModel"].

Definition load_all (keys : list string) (saved_dict : gmap string StateDict)
    (st : Trainer * result unit) : Trainer * result unit :=
  foldl (λ st key, load_one key saved_dict st) st keys.

(** The saved dictionary has an entry under [key] that passes the strict
    check against the sub-model of [self] stored under [key]. *)
Definition entry_fits (self : Trainer) (saved_dict : gmap string StateDict)
    (key : string) : Prop :=
  ∃ m sd, get_submodel key self = Some m
          ∧ saved_dict !! key = Some sd ∧ fits m sd.

(** Every parameter tensor of the target-value network equals the
    parameter tensor of the same name in the value network. *)
Definition target_equals_value (self : Trainer) : Prop :=
  ∃ target, TargetValueModel self = Some target
            ∧ ∀ name : string, target !! name = ValueModel self !! name.

(** ** Tensors *)

Definition of_nat (n : nat) : Qc := Q2Qc (inject_Z (Z.of_nat n)).

Definition half : Qc := Q2Qc (1 # 2).

Definition sum_elems (l : list Qc) : Qc := foldr Qcplus 0 l.

(** [torch.mean] and [.sum()] over all the elements of a tensor given by
    its flattened data; a 0-dimensional tensor flattens to one element.
    The mean of an empty tensor is [nan] in torch and [0] here (division by
    zero in [Qc]): [torch_mean] stands for [torch.mean] on tensors with at
    least one element. *)
Definition torch_sum (flat : list Qc) : Qc := sum_elems flat.

Definition torch_mean (flat : list Qc) : Qc :=
  sum_elems flat / of_nat (length flat).

(** [torch.mean(x, dim=1)] *)
Definition mean_dim1 (x : tensor2) : list Qc := map torch_mean x.

Definition add2 (x y : tensor2) : tensor2 := zip_with (zip_with Qcplus) x y.
Definition sub2 (x y : tensor2) : tensor2 := zip_with (zip_with Qcminus) x y.
Definition mul2 (x y : tensor2) : tensor2 := zip_with (zip_with Qcmult) x y.
Definition scale2 (c : Qc) (x : tensor2) : tensor2 := map (map (Qcmult c)) x.
Definition square2 (x : tensor2) : tensor2 := map (map (λ v, v ^ 2)) x.
Definition ones_like (x : tensor2) : tensor2 := map (map (λ _, 1)) x.

(** [torch.cumprod(x, 0)] *)
Fixpoint cumprod_from (acc : list Qc) (x : tensor2) : tensor2 :=
  match x with
  | [] => []
  | row :: rest =>
      let acc' := zip_with Qcmult acc row in
      acc' :: cumprod_from acc' rest
  end.

Definition cumprod (x : tensor2) : tensor2 :=
  match x with
  | [] => []
  | row :: rest => row :: cumprod_from row rest
  end.

(** Slices along the time axis: [x[:-1]], [x[1:]], [x[:1]], [x[-1]]. *)
Definition but_last {A} (x : list A) : list A := take (length x - 1) x.
Definition from_1 {A} (x : list A) : list A := tail x.
Definition up_to_1 {A} (x : list A) : list A := take 1 x.
Definition last_row {A} (x : list (list A)) : list A :=
  default [] (x !! (length x - 1)%nat).

(** Index-based sums and products, used to state the losses entry by entry. *)
Definition big_sum (n : nat) (f : nat → Qc) : Qc := sum_elems (map f (seq 0 n)).

Definition big_prod (lo n : nat) (f : nat → Qc) : Qc :=
  foldr Qcmult 1 (map f (seq lo n)).

Definition at2 {A} (x : list (list A)) (t i : nat) : option A :=
  x !! t ≫= λ row, row !! i.

Definition get2 (x : tensor2) (t i : nat) : Qc := default 0 (at2 x t i).

(** [shape T N x]: [x] is a rectangular tensor with [T] rows of [N] entries. *)
Definition shape {A} (T N : nat) (x : list (list A)) : Prop :=
  length x = T ∧ Forall (λ row, length row = N) x.

(** ** Autograd *)

(** A value together with the parameter groups that receive a gradient when
    [backward()] is called on it. *)
Record Tensor (A : Type) : Type := Track {
  data : A;
  grad_deps : gset submodel;
}.
Arguments Track {A} data grad_deps.
Arguments data {A} t.
Arguments grad_deps {A} t.

Definition lift1 {A B} (f : A → B) (x : Tensor A) : Tensor B :=
  Track (f (data x)) (grad_deps x).

Definition lift2 {A B C} (f : A → B → C) (x : Tensor A) (y : Tensor B)
    : Tensor C :=
  Track (f (data x) (data y)) (grad_deps x ∪ grad_deps y).

(** [x.detach()], and a value computed under [torch.no_grad()]. *)
Definition detach {A} (x : Tensor A) : Tensor A := Track (data x) ∅.

(** Calling module [m], whose forward map on the data is [f]: the output
    carries the gradient paths of the input, and reaches the parameters of
    [m] when they require gradients. *)
Definition call {A B} (rg : gset submodel) (m : submodel) (f : A → B)
    (x : Tensor A) : Tensor B :=
  Track (f (data x))
        (grad_deps x ∪ (if decide (m ∈ rg) then {[m]} else ∅)).

(** Modelled from the spec: [FreezeParameters] of [dreamerv2.utils.module],
    which is not among the sources.  On entry the gradient flags of the
    given modules are switched off, on exit the previous flags are restored.
    The function gives the flags in force inside the block; the caller keeps
    using its own flags after it. *)
Definition FreezeParameters (modules : list submodel) (rg : gset submodel)
    : gset submodel :=
  rg ∖ list_to_set modules.

(** ** Latent states and distributions *)

(** Modelled from the spec: the latent state [RSSMContState] of
    [dreamerv2.utils.rssm], which is not among the sources.  One record is
    the state of one sample at one time step. *)
Record LatentState : Type := {
  deterministic : vec;
  stochastic_mean : vec;
  stochastic_std : vec;
  stochastic_sample : vec;
}.

Definition zero_state : LatentState :=
  {| deterministic := []; stochastic_mean := [];
     stochastic_std := []; stochastic_sample := [] |}.

(** Entries of a state sequence and of a vector-valued tensor, by index. *)
Definition state_at (x : list (list LatentState)) (t i : nat) : LatentState :=
  default zero_state (at2 x t i).

Definition vec_at (x : list (list vec)) (t i : nat) : vec :=
  default [] (at2 x t i).

(** Modelled from the spec: [get_modelstate], the concatenation of the
    deterministic part and the stochastic sample. *)
Definition get_modelstate (s : LatentState) : vec :=
  deterministic s ++ stochastic_sample s.

(** Modelled from the spec: [rssm_seq_to_batch], which keeps the first
    [seq_len] time steps and flattens time and batch into one batch axis. *)
Definition rssm_seq_to_batch (x : list (list LatentState))
    (batch_size_ seq_len_ : nat) : list LatentState :=
  concat (take seq_len_ x).

(** Modelled from the spec: [rssm_detach] stops the gradient through every
    field of the state. *)
Definition rssm_detach {A} (x : Tensor A) : Tensor A := detach x.

(** The Normal distribution of one latent state, as [get_dist] builds it. *)
Record NormalDist : Type := { loc : vec; scale : vec }.

Definition get_dist (s : LatentState) : NormalDist :=
  {| loc := stochastic_mean s; scale := stochastic_std s |}.

(** What a decoder head returns for one sample: an object with [mean] and
    [log_prob]. *)
Record Distribution (X : Type) : Type := {
  mean : X;
  log_prob : X → Qc;
}.
Arguments mean {X} d.
Arguments log_prob {X} d x.

(** [dist.log_prob(target)] over a [T, N] batch of distributions, for a
    target of the same shape [T, N]; for another shape the program raises
    or broadcasts, and [zip_with] stops at the shorter list. *)
Definition log_prob2 {X} (d : list (list (Distribution X)))
    (target : list (list X)) : tensor2 :=
  zip_with (zip_with log_prob) d target.

(** Modelled from the spec: [compute_return] of [dreamerv2.utils.algorithm],
    which is not among the sources:
    [R_h = reward_h + discount_h * ((1 - lambda) * value_(h+1) + lambda * R_(h+1))],
    the recursion ending in the bootstrap value.  [next_values] is
    [value[1:]] followed by the bootstrap row. *)
Fixpoint lambda_rec (reward next_values discount_ : tensor2)
    (bootstrap : list Qc) (lam : Qc) : tensor2 :=
  match reward, next_values, discount_ with
  | r :: rs, v :: vs, d :: ds =>
      let rest := lambda_rec rs vs ds bootstrap lam in
      let R_next := match rest with [] => bootstrap | R :: _ => R end in
      zip_with Qcplus r
        (zip_with Qcmult d
           (zip_with Qcplus (map (Qcmult (1 - lam)) v)
                            (map (Qcmult lam) R_next)))
      :: rest
  | _, _, _ => []
  end.

Definition compute_return (reward value discount_ : tensor2)
    (bootstrap : list Qc) (lam : Qc) : tensor2 :=
  lambda_rec reward (from_1 value ++ [bootstrap]) discount_ bootstrap lam.


(** ** Modules by parameter group *)

Definition get_module (m : submodel) (s : Trainer) : option StateDict :=
  match m with
  | pRSSM => Some (RSSM s)
  | pObsEncoder => Some (ObsEncoder s)
  | pObsDecoder => Some (ObsDecoder s)
  | pRewardDecoder => Some (RewardDecoder s)
  | pActionModel => Some (ActionModel s)
  | pValueModel => Some (ValueModel s)
  | pTargetValueModel => TargetValueModel s
  | pDiscountModel => DiscountModel s
  end.

(** Writing new values into the parameters of a module that exists; a
    group without a module holds no parameters. *)
Definition set_module (m : submodel) (v : StateDict) (s : Trainer) : Trainer :=
  match m with
  | pRSSM => set_submodel "RSSM" v s
  | pObsEncoder => set_submodel "ObsEncoder" v s
  | pObsDecoder => set_submodel "ObsDecoder" v s
  | pRewardDecoder => set_submodel "RewardDecoder" v s
  | pActionModel => set_submodel "ActionModel" v s
  | pValueModel => set_submodel "ValueModel" v s
  | pTargetValueModel =>
      match TargetValueModel s with
      | Some _ => set_TargetValueModel (Some v) s
      | None => s
      end
  | pDiscountModel =>
      match DiscountModel s with
      | Some _ => set_submodel "DiscountModel" v s
      | None => s
      end
  end.

(** [optimizer.step()]: the optimiser rewrites the parameters of the groups
    it was built over and of no other.  [new_params m old] is the value
    Adam computes for group [m]; the arithmetic of Adam is not modelled. *)
Definition optimizer_step (opt : Adam)
    (new_params : submodel → StateDict → StateDict) (s : Trainer) : Trainer :=
  foldr (λ m s, match get_module m s with
                | Some old => set_module m (new_params m old) s
                | None => s
                end)
        s (adam_params opt).

(** Everything of a trainer but the values of its parameters: the
    hyper-parameters, the module lists, the optimisers, the gradient flags,
    and which optional modules exist. *)
Definition configuration (s : Trainer) :=
  (action_size s, pixels s, use_fixed_target s, kl_balancing_scale s,
   (seq_len s, batch_size s, collect_intervals s, seed_episodes s),
   (model_lr s, actor_lr s, value_lr s, discount s, lambda_ s, horizon s),
   (kl_scale s, pcont_scale s, actor_entropy_scale s, grad_clip_norm s),
   (world_list s, actor_list s, value_list s, actorcritic_list s),
   (model_optimizer s, actor_optimizer s, value_optimizer s),
   requires_grad s,
   (bool_decide (is_Some (TargetValueModel s)),
    bool_decide (is_Some (DiscountModel s)))).

(** ** What construction establishes *)

(** The attributes, lists, optimisers and gradient flags as
    [__init__] and [optim_initialize] leave them. *)
Definition well_formed (self : Trainer) : Prop :=
  is_Some (DiscountModel self)
  ∧ (is_Some (TargetValueModel self) ↔ use_fixed_target self = true)
  ∧ world_list self
    = [pObsEncoder; pRSSM; pRewardDecoder; pObsDecoder; pDiscountModel]
  ∧ actor_list self = [pActionModel]
  ∧ value_list self
    = (if use_fixed_target self then [pValueModel; pTargetValueModel]
       else [pValueModel])
  ∧ actorcritic_list self = [pActionModel; pValueModel]
  ∧ model_optimizer self
    = Some {| adam_params := world_list self; adam_lr := model_lr self |}
  ∧ actor_optimizer self
    = Some {| adam_params := actor_list self; adam_lr := actor_lr self |}
  ∧ value_optimizer self
    = Some {| adam_params := value_list self; adam_lr := value_lr self |}
  ∧ requires_grad self = all_submodels.

(** The trainers a program can hold: built by [__init__], then changed by
    [update_target] and by [load_save_dict], whether the load succeeds or
    stops at a missing key. *)
Inductive reachable : Trainer → Prop :=
  | reachable_init fresh action_size_ cfg pixels_ self :
      __init__ fresh action_size_ cfg pixels_ = Ok self → reachable self
  | reachable_update_target self self' :
      reachable self → update_target self = Ok self' → reachable self'
  | reachable_load self saved_dict :
      reachable self → reachable (fst (load_save_dict self saved_dict)).

(** The groups an optimiser steps, [[]] before [optim_initialize]. *)
Definition optimizer_params (opt : option Adam) : list submodel :=
  match opt with
  | Some o => adam_params o
  | None => []
  end.

(** ** Seed episodes *)

(** One call [self.buffer.add(s, a, r, done)] or
    [self.buffer.add(s, a, r, done, ns)]; the buffer is the external replay
    buffer, seen here as the sequence of calls it receives. *)
Record Transition : Type := {
  tr_obs : vec;
  tr_action : vec;
  tr_reward : Qc;
  tr_done : bool;
  tr_next_obs : option vec;
}.

(** The environment: [reset()], [action_space.sample()] and [step(a)], each
    with the state it leaves the environment in. *)
Record Environment (E : Type) : Type := {
  env_reset : E → vec * E;
  env_sample : E → vec * E;
  env_step : E → vec → vec * Qc * bool * E;
}.
Arguments env_reset {E} _ _.
Arguments env_sample {E} _ _.
Arguments env_step {E} _ _ _.

(** The loop [while not done] of one episode; [fuel] bounds the number of
    steps, and [None] means the episode did not end within it. *)
Fixpoint run_episode {E} (env : Environment E) (fuel : nat) (e : E) (s : vec)
    (buffer : list Transition) : option (E * list Transition) :=
  match fuel with
  | O => None
  | S fuel' =>
      let '(a, e) := env_sample env e in
      let '(ns, r, done, e) := env_step env e a in
      if done
      then Some (e, buffer ++ [{| tr_obs := s; tr_action := a; tr_reward := r;
                                  tr_done := done; tr_next_obs := Some ns |}])
      else run_episode env fuel' e ns
             (buffer ++ [{| tr_obs := s; tr_action := a; tr_reward := r;
                            tr_done := done; tr_next_obs := None |}])
  end.

Fixpoint run_episodes {E} (env : Environment E) (fuel : nat) (episodes : nat)
    (e : E) (buffer : list Transition) : option (E * list Transition) :=
  match episodes with
  | O => Some (e, buffer)
  | S episodes' =>
      let '(s, e) := env_reset env e in
      match run_episode env fuel e s buffer with
      | None => None
      | Some (e, buffer) => run_episodes env fuel episodes' e buffer
      end
  end.

Definition collect_seed_episodes {E} (env : Environment E) (fuel : nat)
    (self : Trainer) (e : E) (buffer : list Transition)
    : option (E * list Transition) :=
  run_episodes env fuel (seed_episodes self) e buffer.

(** A stored transition carries the next observation exactly when it ends
    its episode. *)
Definition well_labelled (tr : Transition) : Prop :=
  tr_done tr = true ↔ is_Some (tr_next_obs tr).

(** The episodes of [env] are bounded by [limit]: a step that does not end
    the episode lowers it. *)
Definition episodes_bounded {E} (env : Environment E) (limit : E → nat) : Prop :=
  (∀ e, limit (snd (env_sample env e)) = limit e)
  ∧ ∀ e a, let '(_, _, done, e') := env_step env e a in
           done = false → (limit e' < limit e)%nat.

(** ** Metrics *)

(** A Python float as [np.mean] returns it: a number, or [nan] for the
    mean of no values. *)
Inductive npfloat : Type :=
  | Finite (x : Qc)
  | NaN.

Definition np_mean (l : list Qc) : npfloat :=
  match l with
  | [] => NaN
  | _ => Finite (sum_elems l / of_nat (length l))
  end.


(** What one inner iteration appends to the nine lists of [train_batch]. *)
Record IterationLosses : Type := {
  it_actor : Qc;
  it_value : Qc;
  it_obs : Qc;
  it_model : Qc;
  it_reward : Qc;
  it_prior_ent : Qc;
  it_post_ent : Qc;
  it_kl : Qc;
  it_pcont : Qc;
}.
(** ** A small concrete instance

    Two-sample batches, sequences of two steps, an imagination horizon of
    one step.  The networks are the simplest maps of the right type. *)

Definition q (n : Z) (d : positive) : Qc := Q2Qc (n # d).

Definition toy_fresh (m : submodel) : StateDict :=
  match m with
  | pValueModel => {[ "bias" := [q 0 1] ]}
  | pTargetValueModel => {[ "bias" := [q 7 1] ]}
  | pRewardDecoder => {[ "bias" := [q 1 1] ]}
  | _ => {[ "weight" := [q 1 1] ]}
  end.

Definition toy_config (fixed_target discount_model kl_balancing : bool)
    : TrainingConfig :=
  {| cfg_use_fixed_target := fixed_target;
     cfg_use_discount_model := discount_model;
     cfg_use_kl_balancing := kl_balancing;
     cfg_kl_balancing_scale := half;
     cfg_seq_len := 2;
     cfg_batch_size := 2;
     cfg_collect_intervals := 1;
     cfg_seed_episodes := 1;
     cfg_model_learning_rate := q 1 1000;
     cfg_actor_learning_rate := q 1 1000;
     cfg_value_learning_rate := q 1 1000;
     cfg_discount := q 99 100;
     cfg_lambda_ := q 1 2;
     cfg_horizon := 1;
     cfg_kl_scale := q 1 1;
     cfg_pcont_scale := q 5 1;
     cfg_actor_entropy_scale := q 1 1000;
     cfg_grad_clip_norm := q 100 1 |}.

(** The trainer that [__init__ toy_fresh 1 (toy_config ft true kl) false]
    returns (see [toy_trainer_constructed]). *)
Definition toy_trainer (fixed_target kl_balancing : bool) : Trainer :=
  let value := if fixed_target then [pValueModel; pTargetValueModel]
               else [pValueModel] in
  let world := [pObsEncoder; pRSSM; pRewardDecoder; pObsDecoder; pDiscountModel] in
  {| RSSM := toy_fresh pRSSM; ActionModel := toy_fresh pActionModel;
     RewardDecoder := toy_fresh pRewardDecoder;
     ValueModel := toy_fresh pValueModel;
     TargetValueModel :=
       if fixed_target then Some (toy_fresh pValueModel) else None;
     DiscountModel := Some (toy_fresh pDiscountModel);
     ObsEncoder := toy_fresh pObsEncoder; ObsDecoder := toy_fresh pObsDecoder;
     action_size := 1; pixels := false;
     use_fixed_target := fixed_target;
     kl_balancing_scale := if kl_balancing then Some half else None;
     seq_len := 2; batch_size := 2; collect_intervals := 1;
     seed_episodes := 1;
     model_lr := q 1 1000; actor_lr := q 1 1000; value_lr := q 1 1000;
     discount := q 99 100; lambda_ := q 1 2; horizon := 1;
     kl_scale := q 1 1; pcont_scale := q 5 1;
     actor_entropy_scale := q 1 1000; grad_clip_norm := q 100 1;
     world_list := world; actor_list := [pActionModel];
     value_list := value; actorcritic_list := [pActionModel; pValueModel];
     model_optimizer := Some {| adam_params := world; adam_lr := q 1 1000 |};
     actor_optimizer :=
       Some {| adam_params := [pActionModel]; adam_lr := q 1 1000 |};
     value_optimizer := Some {| adam_params := value; adam_lr := q 1 1000 |};
     requires_grad := all_submodels |}.

(** A checkpoint that lacks the entries from ["RewardDecoder"] on. *)
Definition toy_partial_checkpoint : gmap string StateDict :=
  <["RSSM" := {[ "weight" := [q 2 1] ]}]>
  (<["ObsEncoder" := {[ "weight" := [q 3 1] ]}]>
  (<["ObsDecoder" := {[ "weight" := [q 4 1] ]}]> ∅)).

Definition toy_bias (theta : StateDict) : Qc :=
  sum_elems (default [] (theta !! "bias")).

Definition toy_ObsEncoder_forward (theta : StateDict) (o : vec) : vec := o.

Definition toy_ObsDecoder_forward (theta : StateDict) (s : vec)
    : Distribution vec :=
  {| mean := s; log_prob := λ o, - (half * sum_elems (zip_with Qcmult o o)) |}.

Definition toy_RewardDecoder_forward (theta : StateDict) (s : vec)
    : Distribution Qc :=
  {| mean := toy_bias theta;
     log_prob := λ r, - (half * (r - toy_bias theta) ^ 2) |}.

Definition toy_DiscountModel_forward (theta : StateDict) (s : vec)
    : Distribution Qc :=
  {| mean := half; log_prob := λ c, - (c + 1) |}.

Definition toy_ValueModel_forward (theta : StateDict) (s : vec) : Qc :=
  toy_bias theta.

Definition toy_state (d s : Z) : LatentState :=
  {| deterministic := [q d 1]; stochastic_mean := [q s 1];
     stochastic_std := [q 1 1]; stochastic_sample := [q s 1] |}.

Definition toy_init_rssm_state (batch_size_ : nat) : list LatentState :=
  replicate batch_size_ (toy_state 0 0).

Definition toy_rollout_observation (rssm : StateDict) (seq_len_ : nat)
    (embed actions : list (list vec)) (prev : list LatentState)
    : list (list LatentState) * list (list LatentState) :=
  (replicate seq_len_ prev,
   map (map (λ e, {| deterministic := [q 0 1]; stochastic_mean := e;
                     stochastic_std := map (λ _, q 1 1) e;
                     stochastic_sample := e |})) embed).

Definition toy_rollout_imagination (rssm actor : StateDict) (horizon_ : nat)
    (start : list LatentState)
    : list (list LatentState) * list (list vec) * tensor2 :=
  (replicate (S horizon_) start,
   replicate (S horizon_) (map (λ _, [q 0 1]) start),
   replicate (S horizon_) (map (λ _, q 1 1) start)).

Definition toy_kl_divergence (p r : NormalDist) : Qc :=
  half * sum_elems (zip_with (λ a b, (a - b) ^ 2) (loc p) (loc r)).

Definition toy_posterior : Tensor (list (list LatentState)) :=
  Track [[toy_state 0 1; toy_state 0 2]; [toy_state 1 3; toy_state 1 4]]
        {[ pObsEncoder; pRSSM ]}.

Definition toy_prior : Tensor (list (list LatentState)) :=
  Track [[toy_state 0 0; toy_state 0 0]; [toy_state 1 1; toy_state 1 2]]
        {[ pObsEncoder; pRSSM ]}.

Definition toy_obs : list (list vec) :=
  [[[q 1 1]; [q 2 1]]; [[q 3 1]; [q 4 1]]].

Definition toy_actions : list (list vec) :=
  [[[q 0 1]; [q 0 1]]; [[q 1 1]; [q 0 1]]].

Definition toy_rewards : tensor2 := [[q 0 1; q 0 1]; [q 1 1; q 2 1]].

Definition toy_nonterms : tensor2 := [[q 1 1; q 1 1]; [q 1 1; q 0 1]].

(** An environment whose state is the number of steps left in the episode;
    [reset] starts an episode of two steps. *)
Definition toy_env : Environment nat :=
  {| env_reset := λ e, ([q 0 1], 2%nat);
     env_sample := λ e, ([q 1 1], e);
     env_step := λ e a,
       ([of_nat (e - 1)], q 1 1, Nat.eqb (e - 1) 0, (e - 1)%nat) |}.

(** An environment that never reports the end of an episode. *)
Definition toy_endless_env : Environment nat :=
  {| env_reset := λ e, ([q 0 1], e);
     env_sample := λ e, ([q 1 1], e);
     env_step := λ e a, ([q 0 1], q 0 1, false, S e) |}.

(** A buffer that counts its draws and always returns the same batch, an
    optimiser that counts its steps and adds [1] to every parameter, and a
    unit entropy. *)
Definition toy_terms : tensor2 := [[q 0 1; q 0 1]; [q 0 1; q 1 1]].

Definition toy_buffer_sample (b : nat) (seq_len_ batch_size_ : nat)
    : (list (list vec) * list (list vec) * tensor2 * tensor2) * nat :=
  ((toy_obs, toy_actions, toy_rewards, toy_terms), S b).

Definition toy_adam_update (st : nat) (opt : Adam) (clip : Qc)
    (losses : list (Tensor Qc)) (self : Trainer)
    : (submodel → StateDict → StateDict) * nat :=
  (λ m old, map (Qcplus (q 1 1)) <$> old, S st).

Definition toy_dist_entropy (d : NormalDist) : Qc := q 1 1.

Definition toy_metrics : gmap string npfloat :=
  {[ "episode" := Finite (q 7 1); "model_loss" := Finite (q 0 1) ]}.

(** A posterior that differs from [toy_posterior] in its last step and in
    its gradient paths. *)
Definition toy_posterior' : Tensor (list (list LatentState)) :=
  Track [[toy_state 0 1; toy_state 0 2]; [toy_state 9 9; toy_state 8 8]] ∅.

(** [toy_partial_checkpoint] with an entry that is not in the bundle. *)
Definition toy_checkpoint_with_extra : gmap string StateDict :=
  <["TargetValueModel" := {[ "bias" := [q 5 1] ]}]> toy_partial_checkpoint.

(** A checkpoint whose first entry does not have the parameters of the
    RSSM, and which lacks every other entry. *)
Definition toy_bogus_checkpoint : gmap string StateDict :=
  {[ "RSSM" := {[ "bogus" := [q 1 1] ]} ]}.
(** ** The losses *)

Section Losses.

(** The forward maps of the networks, per sample, as functions of the
    module's parameters; torch applies them along the leading axes.  They
    live in [dreamerv2.models] and are external to the trainer. *)
Context (ObsEncoder_forward : StateDict → vec → vec)
        (ObsDecoder_forward : StateDict → vec → Distribution vec)
        (RewardDecoder_forward : StateDict → vec → Distribution Qc)
        (DiscountModel_forward : StateDict → vec → Distribution Qc)
        (ValueModel_forward : StateDict → vec → Qc).

(** The RSSM roll-outs.  [rollout_observation params seq_len embed actions
    prev] gives the prior and the posterior sequence;
    [rollout_imagination rssm actor horizon start] gives the imagined
    states, the actions and the policy entropies.  The samples they draw
    are part of the function. *)
Context (_init_rssm_state : nat → list LatentState)
        (rollout_observation :
           StateDict → nat → list (list vec) → list (list vec) →
           list LatentState →
           list (list LatentState) * list (list LatentState))
        (rollout_imagination :
           StateDict → StateDict → nat → list LatentState →
           list (list LatentState) * list (list vec) * tensor2).

(** [torch.distributions.kl.kl_divergence] of two Normal distributions. *)
Context (kl_divergence : NormalDist → NormalDist → Qc).

Definition kl2 (p q : Tensor (list (list NormalDist))) : Tensor tensor2 :=
  lift2 (zip_with (zip_with kl_divergence)) p q.

Definition mean_all (x : Tensor tensor2) : Tensor Qc :=
  lift1 (λ d, torch_mean (concat d)) x.

Definition _obs_loss (obs_dist : Tensor (list (list (Distribution vec))))
    (obs : list (list vec)) : Tensor Qc :=
  lift1 Qcopp (mean_all (lift1 (λ d, log_prob2 d obs) obs_dist)).

Definition _reward_loss (reward_dist : Tensor (list (list (Distribution Qc))))
    (rewards : tensor2) : Tensor Qc :=
  lift1 Qcopp (mean_all (lift1 (λ d, log_prob2 d rewards) reward_dist)).

Definition _pcont_loss (pcont_dist : Tensor (list (list (Distribution Qc))))
    (nonterms : tensor2) : Tensor Qc :=
  let pcont_target := nonterms in
  lift1 Qcopp (mean_all (lift1 (λ d, log_prob2 d pcont_target) pcont_dist)).

Definition _kl_loss (self : Trainer)
    (prior posterior : Tensor (list (list LatentState)))
    : Tensor (list (list NormalDist)) * Tensor (list (list NormalDist))
      * Tensor Qc :=
  let dist_of := lift1 (map (map get_dist)) in
  let prior_dist := dist_of prior in
  let post_dist := dist_of posterior in
  let kl_loss :=
    match kl_balancing_scale self with
    | Some balance =>
        lift2 Qcplus
          (lift1 (Qcmult balance)
             (mean_all (kl2 (dist_of (rssm_detach posterior)) prior_dist)))
          (lift1 (Qcmult (1 - balance))
             (mean_all (kl2 post_dist (dist_of (rssm_detach prior)))))
    | None => mean_all (kl2 post_dist prior_dist)
    end in
  (prior_dist, post_dist, kl_loss).

(** The decoding stage of [representation_loss]: the three decoded
    distributions for a posterior sequence. *)
Definition decode_posterior (self : Trainer)
    (posterior : Tensor (list (list LatentState)))
    : result (Tensor (list (list (Distribution vec)))
              * Tensor (list (list (Distribution Qc)))
              * Tensor (list (list (Distribution Qc)))) :=
  let rg := requires_grad self in
  let post_modelstate := lift1 (map (map get_modelstate)) posterior in
  let obs_dist :=
    call rg pObsDecoder (map (map (ObsDecoder_forward (ObsDecoder self))))
         post_modelstate in
  let reward_dist :=
    call rg pRewardDecoder
         (map (map (RewardDecoder_forward (RewardDecoder self))))
         (lift1 but_last post_modelstate) in
  discount_model ← getattr "DiscountModel" (DiscountModel self);
  let pcont_dist :=
    call rg pDiscountModel
         (map (map (DiscountModel_forward discount_model)))
         (lift1 but_last post_modelstate) in
  mret (obs_dist, reward_dist, pcont_dist).

(** The encoding and roll-out stage of [representation_loss]: the prior
    and the posterior sequence of an observed batch. *)
Definition observe (self : Trainer) (obs actions : list (list vec))
    : Tensor (list (list LatentState)) * Tensor (list (list LatentState)) :=
  let rg := requires_grad self in
  let embed :=
    call rg pObsEncoder (map (map (ObsEncoder_forward (ObsEncoder self))))
         (Track obs ∅) in
  let prev_rssm_state := _init_rssm_state (batch_size self) in
  let rolled :=
    call rg pRSSM
         (λ e, rollout_observation (RSSM self) (seq_len self) e actions
                                   prev_rssm_state)
         embed in
  (lift1 fst rolled, lift1 snd rolled).

Definition representation_loss (self : Trainer)
    (obs actions : list (list vec)) (rewards nonterms : tensor2)
    : result (Tensor Qc * Tensor Qc * Tensor Qc * Tensor Qc * Tensor Qc
              * Tensor (list (list NormalDist))
              * Tensor (list (list NormalDist))
              * Tensor (list (list LatentState))) :=
  let '(prior, posterior) := observe self obs actions in
  '(obs_dist, reward_dist, pcont_dist) ← decode_posterior self posterior;
  let obs_loss := _obs_loss obs_dist obs in
  let reward_loss := _reward_loss reward_dist (from_1 rewards) in
  let pcont_loss := _pcont_loss pcont_dist (from_1 nonterms) in
  let '(prior_dist, post_dist, div) := _kl_loss self prior posterior in
  let model_loss :=
    lift2 Qcplus
      (lift2 Qcplus
         (lift2 Qcplus (lift1 (Qcmult (kl_scale self)) div) reward_loss)
         obs_loss)
      (lift1 (Qcmult (pcont_scale self)) pcont_loss) in
  mret (model_loss, div, obs_loss, reward_loss, pcont_loss,
        prior_dist, post_dist, posterior).

(** *** Actor-critic loss, stage by stage *)

(** Imagination from the detached posterior, under
    [FreezeParameters(self.world_list)].  The step count [seq_len - 1] is
    the program's for [seq_len] of at least one. *)
Definition imagine (self : Trainer)
    (posterior : Tensor (list (list LatentState)))
    : Tensor (list (list vec)) * Tensor tensor2 :=
  let batched_posterior :=
    rssm_detach
      (lift1 (λ p, rssm_seq_to_batch p (batch_size self) (seq_len self - 1))
             posterior) in
  let rg := FreezeParameters (world_list self) (requires_grad self) in
  let rolled :=
    call rg pActionModel
         (rollout_imagination (RSSM self) (ActionModel self) (horizon self))
         (call rg pRSSM id batched_posterior) in
  let imag_rssm_states := lift1 (λ r, fst (fst r)) rolled in
  let policy_entropy := lift1 snd rolled in
  let imag_modelstates := lift1 (map (map get_modelstate)) imag_rssm_states in
  (imag_modelstates, policy_entropy).

(** Imagined reward and value, under
    [FreezeParameters(self.world_list + self.value_list)]. *)
Definition imagined_reward_value (self : Trainer)
    (imag_modelstates : Tensor (list (list vec)))
    : result (Tensor tensor2 * Tensor tensor2) :=
  let rg :=
    FreezeParameters (world_list self ++ value_list self)
                     (requires_grad self) in
  let imag_reward_dist :=
    call rg pRewardDecoder
         (map (map (RewardDecoder_forward (RewardDecoder self))))
         imag_modelstates in
  let imag_reward := lift1 (map (map mean)) imag_reward_dist in
  imag_value ←
    (if use_fixed_target self
     then target ← getattr "TargetValueModel" (TargetValueModel self);
          mret (call rg pTargetValueModel
                     (map (map (ValueModel_forward target)))
                     imag_modelstates)
     else mret (call rg pValueModel
                     (map (map (ValueModel_forward (ValueModel self))))
                     imag_modelstates));
  mret (imag_reward, imag_value).

(** Decoded discount, under [FreezeParameters([self.DiscountModel])]. *)
Definition imagined_discount (self : Trainer)
    (imag_modelstates : Tensor (list (list vec))) : result (Tensor tensor2) :=
  discount_model ← getattr "DiscountModel" (DiscountModel self);
  let rg := FreezeParameters [pDiscountModel] (requires_grad self) in
  let discount_dist :=
    call rg pDiscountModel
         (map (map (DiscountModel_forward discount_model)))
         imag_modelstates in
  mret (lift1 (map (map mean)) discount_dist).

Definition lambda_returns_of (self : Trainer)
    (imag_reward imag_value discount_arr : Tensor tensor2) : Tensor tensor2 :=
  lift2 (λ rv d,
           compute_return (but_last (fst rv)) (but_last (snd rv))
                          (but_last d) (last_row (snd rv)) (lambda_ self))
        (lift2 pair imag_reward imag_value) discount_arr.

(** [torch.cat([torch.ones_like(d[:1]), d[1:]])] and the cumulative
    product of all its rows but the last. *)
Definition discount_weights (discount_arr : Tensor tensor2) : Tensor tensor2 :=
  let discount_arr' :=
    lift1 (λ d, ones_like (up_to_1 d) ++ from_1 d) discount_arr in
  lift1 (λ d, cumprod (but_last d)) discount_arr'.

Definition actor_loss_of (self : Trainer)
    (discount_ lambda_returns policy_entropy : Tensor tensor2) : Tensor Qc :=
  let policy_entropy := lift1 but_last policy_entropy in
  let weighted :=
    lift2 mul2 discount_
      (lift2 add2 lambda_returns
         (lift1 (scale2 (actor_entropy_scale self)) policy_entropy)) in
  lift1 Qcopp (lift1 (λ x, torch_sum (mean_dim1 x)) weighted).

Definition value_loss_of (self : Trainer)
    (imag_modelstates : Tensor (list (list vec)))
    (discount_ lambda_returns : Tensor tensor2) : Tensor Qc :=
  let value_modelstates := detach (lift1 but_last imag_modelstates) in
  let value_discount := detach discount_ in
  let value_target := detach lambda_returns in
  let value_pred :=
    call (requires_grad self) pValueModel
         (map (map (ValueModel_forward (ValueModel self))))
         value_modelstates in
  let weighted_error :=
    lift2 mul2 value_discount (lift2 sub2 value_target value_pred) in
  let summed :=
    lift1 (λ x, torch_sum (concat x))
          (lift1 (scale2 half) (lift1 square2 weighted_error)) in
  lift1 (λ s, torch_mean [s]) summed.

Definition actorcritc_loss (self : Trainer)
    (posterior : Tensor (list (list LatentState)))
    : result (Tensor Qc * Tensor Qc) :=
  let '(imag_modelstates, policy_entropy) := imagine self posterior in
  '(imag_reward, imag_value) ← imagined_reward_value self imag_modelstates;
  discount_arr ← imagined_discount self imag_modelstates;
  let lambda_returns :=
    lambda_returns_of self imag_reward imag_value discount_arr in
  let discount_ := discount_weights discount_arr in
  let actor_loss :=
    actor_loss_of self discount_ lambda_returns policy_entropy in
  let value_loss :=
    value_loss_of self imag_modelstates discount_ lambda_returns in
  mret (actor_loss, value_loss).


(** The value loss in the words of the specification: the mean of the
    terms [0.5 * (discount * (target - prediction)) ^ 2], taken over every
    imagined step but the last and every sample. *)
Definition value_loss_mean_squared_error (self : Trainer)
    (imag_modelstates : list (list vec)) (discount_ lambda_returns : tensor2)
    : Qc :=
  let value_pred :=
    map (map (ValueModel_forward (ValueModel self)))
        (but_last imag_modelstates) in
  torch_mean
    (concat (scale2 half
               (square2 (mul2 discount_ (sub2 lambda_returns value_pred))))).

(** *** The training loop *)

(** The collaborators of [train_batch].  [buffer_sample b seq_len
    batch_size] is [self.buffer.sample(seq_len, batch_size)]: observations,
    actions, rewards and terminal flags, and the buffer after the draw.
    [adam_update st opt clip losses self] stands for [zero_grad], the
    [backward] passes of [losses], gradient clipping at norm [clip] and the
    arithmetic of [opt.step()]: it gives the new value of each parameter
    group and the optimiser state after the step.  [dist_entropy] is
    [entropy()] of one latent distribution. *)
Context {Buffer OptimState : Type}
        (buffer_sample :
           Buffer → nat → nat →
           (list (list vec) * list (list vec) * tensor2 * tensor2) * Buffer)
        (adam_update :
           OptimState → Adam → Qc → list (Tensor Qc) → Trainer →
           (submodel → StateDict → StateDict) * OptimState)
        (dist_entropy : NormalDist → Qc).

(** [torch.mean(dist.entropy())] under [torch.no_grad()] *)
Definition mean_entropy (d : Tensor (list (list NormalDist))) : Qc :=
  torch_mean (concat (map (map dist_entropy) (data d))).

(** One pass of the body of [for i in range(self.collect_intervals)]. *)
Definition train_iteration (self : Trainer) (st : OptimState) (buffer : Buffer)
    : result (Trainer * OptimState * Buffer * IterationLosses) :=
  let '(obs, actions, rewards, terms, buffer) :=
    buffer_sample buffer (seq_len self) (batch_size self) in
  let nonterms := map (map (λ t, 1 - t)) terms in
  '(model_loss, kl_loss, obs_loss, reward_loss, pcont_loss,
    prior_dist, post_dist, posterior) ←
    representation_loss self obs actions rewards nonterms;
  model_opt ← getattr "model_optimizer" (model_optimizer self);
  let '(new_world, st) :=
    adam_update st model_opt (grad_clip_norm self) [model_loss] self in
  let self := optimizer_step model_opt new_world self in
  '(actor_loss, value_loss) ← actorcritc_loss self posterior;
  actor_opt ← getattr "actor_optimizer" (actor_optimizer self);
  value_opt ← getattr "value_optimizer" (value_optimizer self);
  let '(new_actor, st) :=
    adam_update st actor_opt (grad_clip_norm self) [actor_loss; value_loss]
                self in
  let '(new_value, st) :=
    adam_update st value_opt (grad_clip_norm self) [actor_loss; value_loss]
                self in
  let self := optimizer_step actor_opt new_actor self in
  let self := optimizer_step value_opt new_value self in
  let prior_ent := mean_entropy prior_dist in
  let post_ent := mean_entropy post_dist in
  mret (self, st, buffer,
        {| it_actor := data actor_loss; it_value := data value_loss;
           it_obs := data obs_loss; it_model := data model_loss;
           it_reward := data reward_loss; it_prior_ent := prior_ent;
           it_post_ent := post_ent; it_kl := data kl_loss;
           it_pcont := data pcont_loss |}).

Fixpoint train_loop (n : nat) (self : Trainer) (st : OptimState)
    (buffer : Buffer) (done : list IterationLosses)
    : result (Trainer * OptimState * Buffer * list IterationLosses) :=
  match n with
  | O => mret (self, st, buffer, done)
  | S n' =>
      '(self, st, buffer, it) ← train_iteration self st buffer;
      train_loop n' self st buffer (done ++ [it])
  end.

Definition train_batch (self : Trainer) (st : OptimState) (buffer : Buffer)
    (train_metrics : gmap string npfloat)
    : result (Trainer * OptimState * Buffer * gmap string npfloat) :=
  '(self, st, buffer, its) ←
    train_loop (collect_intervals self) self st buffer [];
  let train_metrics := <["model_loss" := np_mean (it_model <$> its)]> train_metrics in
  let train_metrics := <["kl_loss" := np_mean (it_kl <$> its)]> train_metrics in
  let train_metrics := <["reward_loss" := np_mean (it_reward <$> its)]> train_metrics in
  let train_metrics := <["obs_loss" := np_mean (it_obs <$> its)]> train_metrics in
  let train_metrics := <["value_loss" := np_mean (it_value <$> its)]> train_metrics in
  let train_metrics := <["actor_loss" := np_mean (it_actor <$> its)]> train_metrics in
  let train_metrics := <["prior_entropy" := np_mean (it_prior_ent <$> its)]> train_metrics in
  let train_metrics := <["posterior_entropy" := np_mean (it_post_ent <$> its)]> train_metrics in
  let train_metrics := <["pcont_loss" := np_mean (it_pcont <$> its)]> train_metrics in
  mret (self, st, buffer, train_metrics).

#[local] Set Default Proof Using "Type".

(** *** Sums, indices and shapes *)

Lemma big_sum_ext (n : nat) (f g : nat → Qc) :
  (∀ i, (i < n)%nat → f i = g i) → big_sum n f = big_sum n g.
Proof.
  intros Hfg. unfold big_sum. f_equal.
  apply map_ext_in. intros i Hi. apply Hfg.
  apply in_seq in Hi. lia.
Qed.

Lemma big_sum_succ (n : nat) (f : nat → Qc) :
  big_sum (S n) f = f 0%nat + big_sum n (λ i, f (S i)).
Proof.
  unfold big_sum. cbn [seq map foldr sum_elems].
  rewrite <- seq_shift, map_map. reflexivity.
Qed.

Lemma sum_elems_cons (x : Qc) (l : list Qc) :
  sum_elems (x :: l) = x + sum_elems l.
Proof. reflexivity. Qed.

Lemma sum_elems_app (a b : list Qc) :
  sum_elems (a ++ b) = sum_elems a + sum_elems b.
Proof.
  induction a as [|x a IH].
  - change (sum_elems b = 0 + sum_elems b). ring.
  - change (x + sum_elems (a ++ b) = x + sum_elems a + sum_elems b).
    rewrite IH. ring.
Qed.

Lemma sum_elems_index (l : list Qc) :
  sum_elems l = big_sum (length l) (λ i, default 0 (l !! i)).
Proof.
  induction l as [|x l IH]; [reflexivity|].
  cbn [length]. rewrite big_sum_succ. cbn. f_equal. exact IH.
Qed.

Lemma sum_concat_index (T N : nat) (x : tensor2) :
  shape T N x →
  sum_elems (concat x) = big_sum T (λ t, big_sum N (λ i, get2 x t i)).
Proof.
  revert T. induction x as [|row x IH]; intros T [Hlen Hrows].
  - cbn in Hlen. subst T. reflexivity.
  - cbn in Hlen. subst T. apply Forall_cons in Hrows as [Hrow Hrows].
    cbn [concat]. rewrite sum_elems_app, big_sum_succ.
    f_equal.
    + rewrite sum_elems_index, Hrow. reflexivity.
    + rewrite (IH (length x)); [reflexivity | by split].
Qed.

Lemma length_concat_shape {A} (T N : nat) (x : list (list A)) :
  shape T N x → length (concat x) = (T * N)%nat.
Proof.
  revert T. induction x as [|row x IH]; intros T [Hlen Hrows].
  - cbn in Hlen. subst T. reflexivity.
  - cbn in Hlen. subst T. apply Forall_cons in Hrows as [Hrow Hrows].
    cbn [concat]. rewrite length_app, Hrow, (IH (length x)); [|by split].
    reflexivity.
Qed.

Lemma sum_mean_dim1_index (T N : nat) (x : tensor2) :
  shape T N x →
  torch_sum (mean_dim1 x)
  = big_sum T (λ t, big_sum N (λ i, get2 x t i) / of_nat N).
Proof.
  revert T. induction x as [|row x IH]; intros T [Hlen Hrows].
  - cbn in Hlen. subst T. reflexivity.
  - cbn in Hlen. subst T. apply Forall_cons in Hrows as [Hrow Hrows].
    rewrite big_sum_succ. unfold torch_sum, mean_dim1 in *.
    cbn [map foldr sum_elems]. f_equal.
    + unfold torch_mean. rewrite sum_elems_index, Hrow. reflexivity.
    + apply (IH (length x)). by split.
Qed.

Lemma shape_at2 {A} (T N : nat) (x : list (list A)) (t i : nat) :
  shape T N x → (t < T)%nat → (i < N)%nat → is_Some (at2 x t i).
Proof.
  intros [Hlen Hrows] Ht Hi. unfold at2.
  destruct (lookup_lt_is_Some_2 x t) as [row Hrow]; [lia|].
  rewrite Hrow. cbn. apply lookup_lt_is_Some_2.
  rewrite Forall_lookup in Hrows. rewrite (Hrows _ _ Hrow). exact Hi.
Qed.

Lemma at2_zip {A B C} (f : A → B → C) (x : list (list A))
    (y : list (list B)) (t i : nat) (a : A) (b : B) :
  at2 x t i = Some a → at2 y t i = Some b →
  at2 (zip_with (zip_with f) x y) t i = Some (f a b).
Proof.
  unfold at2. intros Hx Hy.
  destruct (x !! t) as [rx|] eqn:Ex; [|done].
  destruct (y !! t) as [ry|] eqn:Ey; [|done].
  cbn in Hx, Hy. rewrite lookup_zip_with, Ex, Ey. cbn.
  rewrite lookup_zip_with, Hx, Hy. done.
Qed.

Lemma at2_map {A B} (f : A → B) (x : list (list A)) (t i : nat) :
  at2 (map (map f) x) t i = f <$> at2 x t i.
Proof.
  unfold at2. change (map (map f) x) with (fmap (M := list) (map f) x).
  rewrite list_lookup_fmap. destruct (x !! t) as [row|]; [|done]. cbn.
  change (map f row) with (f <$> row). apply list_lookup_fmap.
Qed.

Lemma at2_but_last {A} (x : list (list A)) (t i : nat) :
  (S t < length x)%nat → at2 (but_last x) t i = at2 x t i.
Proof.
  intros Ht. unfold at2, but_last. rewrite lookup_take_lt; [done | lia].
Qed.

Lemma at2_from_1 {A} (x : list (list A)) (t i : nat) :
  at2 (from_1 x) t i = at2 x (S t) i.
Proof. unfold at2, from_1. by rewrite lookup_tail. Qed.

Lemma shape_zip {A B C} (f : A → B → C) (T N : nat) (x : list (list A))
    (y : list (list B)) :
  shape T N x → shape T N y → shape T N (zip_with (zip_with f) x y).
Proof.
  intros [Hx Fx] [Hy Fy]. split.
  - rewrite length_zip_with. lia.
  - apply Forall_lookup. intros t row Hrow.
    apply lookup_zip_with_Some in Hrow as (rx & ry & -> & Hrx & Hry).
    rewrite length_zip_with.
    rewrite (Forall_lookup_1 _ _ _ _ Fx Hrx), (Forall_lookup_1 _ _ _ _ Fy Hry).
    lia.
Qed.

Lemma shape_map {A B} (f : A → B) (T N : nat) (x : list (list A)) :
  shape T N x → shape T N (map (map f) x).
Proof.
  intros [Hx Fx]. split.
  - by rewrite length_map.
  - apply Forall_forall. intros row Hrow.
    apply list_elem_of_In, in_map_iff in Hrow as (r0 & <- & Hr0).
    rewrite length_map. rewrite Forall_forall in Fx.
    apply Fx, list_elem_of_In, Hr0.
Qed.

Lemma shape_but_last {A} (T N : nat) (x : list (list A)) :
  shape T N x → shape (T - 1) N (but_last x).
Proof.
  intros [Hx Fx]. unfold but_last. split.
  - rewrite length_take. lia.
  - by apply Forall_take.
Qed.

Lemma shape_from_1 {A} (T N : nat) (x : list (list A)) :
  shape T N x → shape (T - 1) N (from_1 x).
Proof.
  intros [Hx Fx]. unfold from_1. destruct x as [|row x]; cbn in *.
  - split; [cbn; lia | constructor].
  - apply Forall_cons in Fx as [_ Fx]. split; [cbn; lia | done].
Qed.

Lemma get2_at2 (x : tensor2) (t i : nat) (v : Qc) :
  at2 x t i = Some v → get2 x t i = v.
Proof. unfold get2. by intros ->. Qed.

(** *** Cumulative products *)

Lemma big_prod_succ (lo n : nat) (f : nat → Qc) :
  big_prod lo (S n) f = f lo * big_prod (S lo) n f.
Proof. reflexivity. Qed.

Lemma big_prod_shift (lo n : nat) (f : nat → Qc) :
  big_prod (S lo) n f = big_prod lo n (λ k, f (S k)).
Proof. unfold big_prod. by rewrite <- seq_shift, map_map. Qed.

Lemma big_prod_ext (lo n : nat) (f g : nat → Qc) :
  (∀ k, (lo ≤ k < lo + n)%nat → f k = g k) →
  big_prod lo n f = big_prod lo n g.
Proof.
  intros Hfg. unfold big_prod. f_equal.
  apply map_ext_in. intros k Hk. apply Hfg. by apply in_seq in Hk.
Qed.

Lemma get2_cons_succ (row : list Qc) (x : tensor2) (t i : nat) :
  get2 (row :: x) (S t) i = get2 x t i.
Proof. reflexivity. Qed.

Lemma get2_cons_zero (row : list Qc) (x : tensor2) (i : nat) :
  get2 (row :: x) 0 i = default 0 (row !! i).
Proof. reflexivity. Qed.

Lemma lookup_mult_rows (a b : list Qc) (i : nat) :
  (i < length a)%nat → (i < length b)%nat →
  default 0 (zip_with Qcmult a b !! i)
  = default 0 (a !! i) * default 0 (b !! i).
Proof.
  intros Ha Hb. rewrite lookup_zip_with.
  destruct (lookup_lt_is_Some_2 a i Ha) as [x ->].
  destruct (lookup_lt_is_Some_2 b i Hb) as [y ->]. reflexivity.
Qed.

Lemma cumprod_from_get (x : tensor2) :
  ∀ (acc : list Qc) (T N t i : nat),
    length acc = N → shape T N x → (t < T)%nat → (i < N)%nat →
    get2 (cumprod_from acc x) t i
    = default 0 (acc !! i) * big_prod 0 (S t) (λ k, get2 x k i).
Proof.
  induction x as [|row x IH]; intros acc T N t i Hacc [Hlen Hrows] Ht Hi.
  - cbn in Hlen. lia.
  - apply Forall_cons in Hrows as [Hrow Hrows]. cbn in Hlen.
    cbn [cumprod_from].
    destruct t as [|t].
    + rewrite get2_cons_zero, lookup_mult_rows by lia.
      rewrite big_prod_succ, get2_cons_zero.
      change (big_prod 1 0 _) with (1 : Qc). ring.
    + rewrite get2_cons_succ.
      rewrite (IH _ (length x) N); [| by rewrite length_zip_with; lia
                                    | by split | lia | done].
      rewrite lookup_mult_rows by lia.
      rewrite (big_prod_succ 0 (S t)), big_prod_shift, get2_cons_zero.
      rewrite (big_prod_ext 0 (S t) (λ k, get2 (row :: x) (S k) i)
                            (λ k, get2 x k i)) by reflexivity.
      ring.
Qed.

Lemma cumprod_get (x : tensor2) (T N t i : nat) :
  shape T N x → (t < T)%nat → (i < N)%nat →
  get2 (cumprod x) t i = big_prod 0 (S t) (λ k, get2 x k i).
Proof.
  intros [Hlen Hrows] Ht Hi. destruct x as [|row x]; [cbn in Hlen; lia|].
  apply Forall_cons in Hrows as [Hrow Hrows]. cbn in Hlen.
  cbn [cumprod]. destruct t as [|t].
  - rewrite get2_cons_zero, big_prod_succ, get2_cons_zero.
    change (big_prod 1 0 _) with (1 : Qc). ring.
  - rewrite get2_cons_succ.
    rewrite (cumprod_from_get x row (length x) N); [| done | by split | lia | done].
    rewrite (big_prod_succ 0 (S t)), big_prod_shift, get2_cons_zero.
    reflexivity.
Qed.

Lemma shape_cumprod_from (x : tensor2) :
  ∀ (acc : list Qc) (T N : nat),
    length acc = N → shape T N x → shape T N (cumprod_from acc x).
Proof.
  induction x as [|row x IH]; intros acc T N Hacc [Hlen Hrows].
  - by split.
  - apply Forall_cons in Hrows as [Hrow Hrows]. cbn in Hlen.
    cbn [cumprod_from].
    assert (Hacc' : length (zip_with Qcmult acc row) = N)
      by (rewrite length_zip_with; lia).
    destruct (IH (zip_with Qcmult acc row) (length x) N Hacc') as [Hl Hr];
      [by split|].
    split; [cbn; lia | by constructor].
Qed.

Lemma shape_cumprod (x : tensor2) (T N : nat) :
  shape T N x → shape T N (cumprod x).
Proof.
  intros [Hlen Hrows]. destruct x as [|row x]; [by split|].
  apply Forall_cons in Hrows as [Hrow Hrows]. cbn in Hlen. cbn [cumprod].
  destruct (shape_cumprod_from x row (length x) N Hrow) as [Hl Hr];
    [by split|].
  split; [cbn; lia | by constructor].
Qed.

(** *** Discount weights and lambda-returns *)

Lemma shape_ones_first (d : tensor2) (H N : nat) :
  shape (S H) N d → shape (S H) N (ones_like (up_to_1 d) ++ from_1 d).
Proof.
  intros [Hlen Hrows]. destruct d as [|row d]; [cbn in Hlen; lia|].
  apply Forall_cons in Hrows as [Hrow Hrows]. cbn in Hlen.
  change (ones_like (up_to_1 (row :: d)) ++ from_1 (row :: d))
    with (map (λ _ : Qc, 1) row :: d).
  split.
  - cbn. lia.
  - constructor; [by rewrite length_map | done].
Qed.

Lemma shape_discount_weights (d : tensor2) (H N : nat) :
  shape (S H) N d →
  shape H N (cumprod (but_last (ones_like (up_to_1 d) ++ from_1 d))).
Proof.
  intros Hd. apply shape_cumprod.
  replace H with (S H - 1)%nat by lia.
  by apply shape_but_last, shape_ones_first.
Qed.

Lemma discount_weights_get (d : tensor2) (H N t i : nat) :
  shape (S H) N d → (t < H)%nat → (i < N)%nat →
  get2 (cumprod (but_last (ones_like (up_to_1 d) ++ from_1 d))) t i
  = big_prod 1 t (λ k, get2 d k i).
Proof.
  intros Hd Ht Hi.
  pose proof (shape_ones_first d H N Hd) as Hx.
  assert (Hb : shape H N (but_last (ones_like (up_to_1 d) ++ from_1 d))).
  { replace H with (S H - 1)%nat by lia. by apply shape_but_last. }
  rewrite (cumprod_get _ H N) by done.
  rewrite big_prod_succ.
  assert (Hget : ∀ k, (k < H)%nat →
            get2 (but_last (ones_like (up_to_1 d) ++ from_1 d)) k i
            = get2 (ones_like (up_to_1 d) ++ from_1 d) k i).
  { intros k Hk. unfold get2. rewrite at2_but_last; [done|].
    destruct Hx as [-> _]. lia. }
  rewrite Hget by lia.
  rewrite (big_prod_ext 1 t _ (λ k, get2 d k i)).
  - destruct Hd as [Hlen Hrows].
    destruct d as [|row d]; [cbn in Hlen; lia|].
    apply Forall_cons in Hrows as [Hrow Hrows].
    change (ones_like (up_to_1 (row :: d)) ++ from_1 (row :: d))
      with (map (λ _ : Qc, 1) row :: d).
    rewrite get2_cons_zero.
    change (map (λ _ : Qc, 1) row) with ((λ _ : Qc, 1) <$> row).
    rewrite list_lookup_fmap.
    destruct (lookup_lt_is_Some_2 row i) as [v ->]; [lia|]. cbn. ring.
  - intros k Hk. rewrite Hget by lia.
    destruct d as [|row d]; [destruct Hd as [Hlen _]; cbn in Hlen; lia|].
    destruct k as [|k]; [lia|]. reflexivity.
Qed.

Lemma shape_lambda_rec (reward : tensor2) :
  ∀ (next_values discount_ : tensor2) (bootstrap : list Qc) (lam : Qc)
    (H N : nat),
    shape H N reward → (H ≤ length next_values)%nat →
    Forall (λ row, length row = N) next_values →
    shape H N discount_ → length bootstrap = N →
    shape H N (lambda_rec reward next_values discount_ bootstrap lam).
Proof.
  induction reward as [|r rs IH];
    intros nv ds b lam H N [Hlen Hr] Hnv Fnv [Hdlen Hd] Hb.
  - cbn in Hlen. subst H. by split.
  - cbn in Hlen. subst H. apply Forall_cons in Hr as [Hr0 Hr].
    destruct nv as [|v vs]; [cbn in Hnv; lia|].
    destruct ds as [|d ds]; [cbn in Hdlen; lia|].
    apply Forall_cons in Fnv as [Hv Fnv].
    apply Forall_cons in Hd as [Hd0 Hd].
    cbn in Hnv, Hdlen. cbn [lambda_rec].
    destruct (IH vs ds b lam (length rs) N) as [Hl Hrows];
      [by split | lia | done | split; [lia | done] | done |].
    split; [cbn; lia|].
    constructor; [|done].
    rewrite !length_zip_with, !length_map, Hr0, Hd0, Hv.
    destruct (lambda_rec rs vs ds b lam) as [|R rest] eqn:E.
    + lia.
    + apply Forall_cons in Hrows as [HR _]. lia.
Qed.

Lemma length_last_row {A} (x : list (list A)) (T N : nat) :
  shape (S T) N x → length (last_row x) = N.
Proof.
  intros [Hlen Hrows]. unfold last_row.
  destruct (lookup_lt_is_Some_2 x (length x - 1)) as [row Hrow]; [lia|].
  rewrite Hrow. cbn. exact (Forall_lookup_1 _ _ _ _ Hrows Hrow).
Qed.

Lemma shape_compute_return (reward value discount_ : tensor2) (lam : Qc)
    (H N : nat) :
  shape (S H) N reward → shape (S H) N value → shape (S H) N discount_ →
  shape H N (compute_return (but_last reward) (but_last value)
                            (but_last discount_) (last_row value) lam).
Proof.
  intros Hr Hv Hd. unfold compute_return.
  pose proof (shape_but_last _ _ _ Hr) as Hr'.
  pose proof (shape_but_last _ _ _ Hv) as Hv'.
  pose proof (shape_but_last _ _ _ Hd) as Hd'.
  replace (S H - 1)%nat with H in * by lia.
  pose proof (length_last_row _ _ _ Hv) as Hb.
  destruct (shape_from_1 _ _ _ Hv') as [Hl Hrows].
  apply shape_lambda_rec; try done.
  - rewrite length_app, Hl. cbn. lia.
  - apply Forall_app. split; [done | by constructor].
Qed.

Lemma get2_zip (f : Qc → Qc → Qc) (T N : nat) (x y : tensor2) (t i : nat) :
  shape T N x → shape T N y → (t < T)%nat → (i < N)%nat →
  get2 (zip_with (zip_with f) x y) t i = f (get2 x t i) (get2 y t i).
Proof.
  intros Hx Hy Ht Hi.
  destruct (shape_at2 T N x t i Hx Ht Hi) as [a Ha].
  destruct (shape_at2 T N y t i Hy Ht Hi) as [b Hb].
  unfold get2. by rewrite (at2_zip f x y t i a b Ha Hb), Ha, Hb.
Qed.

Lemma get2_map (f : Qc → Qc) (T N : nat) (x : tensor2) (t i : nat) :
  shape T N x → (t < T)%nat → (i < N)%nat →
  get2 (map (map f) x) t i = f (get2 x t i).
Proof.
  intros Hx Ht Hi.
  destruct (shape_at2 T N x t i Hx Ht Hi) as [a Ha].
  unfold get2. by rewrite at2_map, Ha.
Qed.

Lemma get2_but_last (x : tensor2) (t i : nat) :
  (S t < length x)%nat → get2 (but_last x) t i = get2 x t i.
Proof. intros Ht. unfold get2. by rewrite at2_but_last. Qed.

(** *** Gradient paths through a module call *)

Lemma call_frozen_subset (inp rg : gset submodel) (m : submodel)
    (frozen : list submodel) :
  (inp ∪ (if decide (m ∈ FreezeParameters frozen rg) then {[m]} else ∅))
  ∖ inp ⊆ {[m]} ∖ list_to_set frozen.
Proof.
  clear. unfold FreezeParameters.
  destruct (decide (m ∈ rg ∖ list_to_set frozen)) as [Hin|Hout].
  - apply elem_of_difference in Hin as [_ Hnot]. set_solver.
  - set_solver.
Qed.

Lemma call_self_frozen (inp rg : gset submodel) (m : submodel) :
  inp ∪ (if decide (m ∈ FreezeParameters [m] rg) then {[m]} else ∅) = inp.
Proof.
  clear. unfold FreezeParameters.
  destruct (decide (m ∈ rg ∖ list_to_set [m])) as [Hin|Hout]; set_solver.
Qed.

Lemma call_detached_subset (rg : gset submodel) (m : submodel) :
  ∅ ∪ (∅ ∪ (∅ ∪ (if decide (m ∈ rg) then {[m]} else ∅)))
  ⊆ ({[m]} : gset submodel).
Proof. clear. destruct (decide (m ∈ rg)); set_solver. Qed.

Lemma frozen_gains_nothing (out inp : gset submodel) (m own : submodel)
    (frozen : list submodel) :
  out ∖ inp ⊆ {[own]} ∖ list_to_set frozen →
  m ∈ frozen → m ∈ out → m ∈ inp.
Proof.
  clear. intros Hsub Hm Hout.
  destruct (decide (m ∈ inp)) as [|Hn]; [done|]. exfalso.
  assert (Hd : m ∈ out ∖ inp) by (apply elem_of_difference; done).
  apply Hsub, elem_of_difference in Hd as [_ Hnot].
  apply Hnot, elem_of_list_to_set, Hm.
Qed.

(** *** The stages of the actor-critic loss *)

Lemma imagined_reward_value_fixed (self : Trainer)
    (ms : Tensor (list (list vec))) (target : StateDict) :
  use_fixed_target self = true → TargetValueModel self = Some target →
  ∃ imag_reward imag_value,
    imagined_reward_value self ms = Ok (imag_reward, imag_value)
    ∧ data imag_reward
      = map (map mean)
          (map (map (RewardDecoder_forward (RewardDecoder self))) (data ms))
    ∧ data imag_value = map (map (ValueModel_forward target)) (data ms)
    ∧ grad_deps imag_reward ∖ grad_deps ms
      ⊆ {[pRewardDecoder]} ∖ list_to_set (world_list self ++ value_list self)
    ∧ grad_deps imag_value ∖ grad_deps ms
      ⊆ {[pTargetValueModel]} ∖ list_to_set (world_list self ++ value_list self).
Proof.
  intros Hfix Htarget. unfold imagined_reward_value.
  rewrite Hfix, Htarget. cbn.
  eexists _, _. split; [reflexivity|].
  cbn [data grad_deps lift1 call].
  repeat split; apply call_frozen_subset.
Qed.

Lemma imagined_reward_value_live (self : Trainer)
    (ms : Tensor (list (list vec))) :
  use_fixed_target self = false →
  ∃ imag_reward imag_value,
    imagined_reward_value self ms = Ok (imag_reward, imag_value)
    ∧ data imag_reward
      = map (map mean)
          (map (map (RewardDecoder_forward (RewardDecoder self))) (data ms))
    ∧ data imag_value
      = map (map (ValueModel_forward (ValueModel self))) (data ms)
    ∧ grad_deps imag_reward ∖ grad_deps ms
      ⊆ {[pRewardDecoder]} ∖ list_to_set (world_list self ++ value_list self)
    ∧ grad_deps imag_value ∖ grad_deps ms
      ⊆ {[pValueModel]} ∖ list_to_set (world_list self ++ value_list self).
Proof.
  intros Hfix. unfold imagined_reward_value.
  rewrite Hfix. cbn.
  eexists _, _. split; [reflexivity|].
  cbn [data grad_deps lift1 call].
  repeat split; apply call_frozen_subset.
Qed.

Lemma imagined_discount_ok (self : Trainer) (ms : Tensor (list (list vec)))
    (discount_model : StateDict) :
  DiscountModel self = Some discount_model →
  ∃ discount_arr,
    imagined_discount self ms = Ok discount_arr
    ∧ data discount_arr
      = map (map mean)
          (map (map (DiscountModel_forward discount_model)) (data ms))
    ∧ grad_deps discount_arr = grad_deps ms.
Proof.
  intros Hdm. unfold imagined_discount. rewrite Hdm. cbn.
  eexists. split; [reflexivity|].
  cbn [data grad_deps lift1 call]. split; [reflexivity|].
  apply call_self_frozen.
Qed.

Lemma imagined_reward_value_data (self : Trainer)
    (ms : Tensor (list (list vec))) (value_params : StateDict) :
  (if use_fixed_target self then TargetValueModel self
   else Some (ValueModel self)) = Some value_params →
  ∃ imag_reward imag_value,
    imagined_reward_value self ms = Ok (imag_reward, imag_value)
    ∧ data imag_reward
      = map (map mean)
          (map (map (RewardDecoder_forward (RewardDecoder self))) (data ms))
    ∧ data imag_value = map (map (ValueModel_forward value_params)) (data ms).
Proof.
  intros Hnet. destruct (use_fixed_target self) eqn:Hfix.
  - destruct (imagined_reward_value_fixed self ms value_params Hfix Hnet)
      as (r & v & Hrun & Hr & Hv & _). by exists r, v.
  - injection Hnet as <-.
    destruct (imagined_reward_value_live self ms Hfix)
      as (r & v & Hrun & Hr & Hv & _). by exists r, v.
Qed.

(** *** Mean log-likelihood, entry by entry *)

Lemma mean_log_prob_index {X} (dists : list (list (Distribution X)))
    (targets : list (list X)) (T N : nat)
    (F : nat → nat → Distribution X) (G : nat → nat → X) :
  shape T N dists → shape T N targets →
  (∀ t i, (t < T)%nat → (i < N)%nat → at2 dists t i = Some (F t i)) →
  (∀ t i, (t < T)%nat → (i < N)%nat → at2 targets t i = Some (G t i)) →
  torch_mean (concat (log_prob2 dists targets))
  = big_sum T (λ t, big_sum N (λ i, log_prob (F t i) (G t i)))
    / of_nat (T * N).
Proof.
  intros Sd St HF HG.
  assert (Sl : shape T N (log_prob2 dists targets)) by by apply shape_zip.
  unfold torch_mean.
  rewrite (length_concat_shape T N), (sum_concat_index T N) by done.
  f_equal. apply big_sum_ext. intros t Ht. apply big_sum_ext. intros i Hi.
  apply get2_at2. apply at2_zip; auto.
Qed.

Lemma at2_shape_default_state (x : list (list LatentState)) (T N t i : nat) :
  shape T N x → (t < T)%nat → (i < N)%nat →
  at2 x t i = Some (state_at x t i).
Proof.
  intros Hx Ht Hi. unfold state_at.
  by destruct (shape_at2 T N x t i Hx Ht Hi) as [s ->].
Qed.

Lemma at2_shape_default_vec (x : list (list vec)) (T N t i : nat) :
  shape T N x → (t < T)%nat → (i < N)%nat →
  at2 x t i = Some (vec_at x t i).
Proof.
  intros Hx Ht Hi. unfold vec_at.
  by destruct (shape_at2 T N x t i Hx Ht Hi) as [s ->].
Qed.

Lemma at2_shape_default (x : tensor2) (T N t i : nat) :
  shape T N x → (t < T)%nat → (i < N)%nat →
  at2 x t i = Some (get2 x t i).
Proof.
  intros Hx Ht Hi. unfold get2.
  by destruct (shape_at2 T N x t i Hx Ht Hi) as [s ->].
Qed.

Lemma representation_loss_unfold (self : Trainer)
    (obs actions : list (list vec)) (rewards nonterms : tensor2)
    (discount_model : StateDict)
    (prior posterior : Tensor (list (list LatentState))) :
  DiscountModel self = Some discount_model →
  observe self obs actions = (prior, posterior) →
  ∃ obs_dist reward_dist pcont_dist,
    decode_posterior self posterior = Ok (obs_dist, reward_dist, pcont_dist)
    ∧ data obs_dist
      = map (map (ObsDecoder_forward (ObsDecoder self)))
          (map (map get_modelstate) (data posterior))
    ∧ data reward_dist
      = map (map (RewardDecoder_forward (RewardDecoder self)))
          (but_last (map (map get_modelstate) (data posterior)))
    ∧ data pcont_dist
      = map (map (DiscountModel_forward discount_model))
          (but_last (map (map get_modelstate) (data posterior)))
    ∧ representation_loss self obs actions rewards nonterms
      = Ok (lift2 Qcplus
              (lift2 Qcplus
                 (lift2 Qcplus
                    (lift1 (Qcmult (kl_scale self))
                           (snd (_kl_loss self prior posterior)))
                    (_reward_loss reward_dist (from_1 rewards)))
                 (_obs_loss obs_dist obs))
              (lift1 (Qcmult (pcont_scale self))
                     (_pcont_loss pcont_dist (from_1 nonterms))),
            snd (_kl_loss self prior posterior),
            _obs_loss obs_dist obs,
            _reward_loss reward_dist (from_1 rewards),
            _pcont_loss pcont_dist (from_1 nonterms),
            fst (fst (_kl_loss self prior posterior)),
            snd (fst (_kl_loss self prior posterior)),
            posterior).
Proof.
  intros Hdm Hobs. unfold representation_loss. rewrite Hobs.
  unfold decode_posterior.
  rewrite Hdm. cbn [getattr mbind mret result_bind result_ret].
  eexists _, _, _.
  split; [reflexivity|]. do 3 (split; [reflexivity|]).
  reflexivity.
Qed.

(** *** The value loss *)

Lemma of_nat_neq_0 (n : nat) : n ≠ 0%nat → of_nat n ≠ 0.
Proof.
  intros Hn Heq. unfold of_nat in Heq.
  change (0 : Qc) with (Q2Qc 0) in Heq.
  apply Q2Qc_eq_iff in Heq. unfold Qeq in Heq. cbn in Heq. lia.
Qed.

Lemma torch_mean_scalar (s : Qc) : torch_mean [s] = s.
Proof.
  unfold torch_mean. cbn [length sum_elems foldr].
  replace (of_nat 1) with (1 : Qc) by (apply Qc_is_canon; reflexivity).
  field. discriminate.
Qed.

Lemma value_loss_unnormalised (self : Trainer)
    (imag_modelstates : Tensor (list (list vec)))
    (discount_ lambda_returns : Tensor tensor2) :
  let terms :=
    scale2 half
      (square2
         (mul2 (data discount_)
            (sub2 (data lambda_returns)
               (map (map (ValueModel_forward (ValueModel self)))
                    (but_last (data imag_modelstates)))))) in
  data (value_loss_of self imag_modelstates discount_ lambda_returns)
  = torch_sum (concat terms)
  ∧ (length (concat terms) ≠ 0%nat →
     data (value_loss_of self imag_modelstates discount_ lambda_returns)
     = of_nat (length (concat terms))
       * value_loss_mean_squared_error self (data imag_modelstates)
           (data discount_) (data lambda_returns))
  ∧ grad_deps (value_loss_of self imag_modelstates discount_ lambda_returns)
    ⊆ {[pValueModel]}.
Proof.
  intros terms.
  assert (Hsum : data (value_loss_of self imag_modelstates discount_
                                     lambda_returns)
                 = torch_sum (concat terms)).
  { cbn [data value_loss_of lift1 lift2 detach call].
    apply torch_mean_scalar. }
  split; [exact Hsum|]. split.
  - intros Hn. rewrite Hsum.
    unfold value_loss_mean_squared_error, torch_mean, torch_sum.
    fold terms. field. by apply of_nat_neq_0.
  - cbn [grad_deps value_loss_of lift1 lift2 detach call].
    apply call_detached_subset.
Qed.

(** *** Properties of the actor-critic loss *)

(** C7.  Inside [actorcritc_loss], for every imagined step [t] and sample
    [i] with model state [s]: the imagined reward is the mean of the
    reward distribution decoded from [s]; the imagined value is the
    output of the target-value network on [s] when [use_fixed_target] is
    set, and of the live value network otherwise.  Both are computed with
    the world-model and value-network parameters frozen: no group of
    [world_list + value_list] gains a gradient path through these calls. *)
Theorem imagined_reward_and_value (self : Trainer)
    (imag_modelstates : Tensor (list (list vec))) (value_params : StateDict) :
  (if use_fixed_target self then TargetValueModel self
   else Some (ValueModel self)) = Some value_params →
  ∃ imag_reward imag_value,
    imagined_reward_value self imag_modelstates = Ok (imag_reward, imag_value)
    ∧ (∀ t i s, at2 (data imag_modelstates) t i = Some s →
         at2 (data imag_reward) t i
         = Some (mean (RewardDecoder_forward (RewardDecoder self) s))
         ∧ at2 (data imag_value) t i
           = Some (ValueModel_forward value_params s))
    ∧ (∀ m, m ∈ world_list self ++ value_list self →
         (m ∈ grad_deps imag_reward → m ∈ grad_deps imag_modelstates)
         ∧ (m ∈ grad_deps imag_value → m ∈ grad_deps imag_modelstates)).
Proof.
  intros Hnet.
  destruct (use_fixed_target self) eqn:Hfix.
  - destruct (imagined_reward_value_fixed self imag_modelstates value_params
                Hfix Hnet) as (r & v & Hrun & Hr & Hv & Gr & Gv).
    exists r, v. split; [exact Hrun|]. split.
    + intros t i s Hs. rewrite Hr, Hv, !at2_map, Hs. by split.
    + intros m Hm. split; eapply frozen_gains_nothing; eauto.
  - injection Hnet as <-.
    destruct (imagined_reward_value_live self imag_modelstates Hfix)
      as (r & v & Hrun & Hr & Hv & Gr & Gv).
    exists r, v. split; [exact Hrun|]. split.
    + intros t i s Hs. rewrite Hr, Hv, !at2_map, Hs. by split.
    + intros m Hm. split; eapply frozen_gains_nothing; eauto.
Qed.

(** C4.  For every imagined rollout of [H + 1] steps over [N] samples,
    the actor loss returned by [actorcritc_loss] is the negative of the sum
    over the imagined steps [t < H] of the batch mean of
    [weight t i * (lambda_return t i + entropy_scale * policy_entropy t i)],
    where the discount weight [weight t i] is the product of the decoded
    discount factors of steps [1 .. t], hence [1] at step [0]. *)
Theorem actor_loss_discounted_sum (self : Trainer)
    (posterior : Tensor (list (list LatentState)))
    (imag_modelstates : Tensor (list (list vec)))
    (policy_entropy : Tensor tensor2)
    (discount_model value_params : StateDict) (H N : nat) :
  imagine self posterior = (imag_modelstates, policy_entropy) →
  shape (S H) N (data imag_modelstates) →
  shape (S H) N (data policy_entropy) →
  DiscountModel self = Some discount_model →
  (if use_fixed_target self then TargetValueModel self
   else Some (ValueModel self)) = Some value_params →
  ∃ imag_reward imag_value discount_arr actor_loss value_loss,
    imagined_reward_value self imag_modelstates = Ok (imag_reward, imag_value)
    ∧ imagined_discount self imag_modelstates = Ok discount_arr
    ∧ actorcritc_loss self posterior = Ok (actor_loss, value_loss)
    ∧ (∀ t i s, at2 (data imag_modelstates) t i = Some s →
         at2 (data discount_arr) t i
         = Some (mean (DiscountModel_forward discount_model s)))
    ∧ let lambda_return :=
        get2 (data (lambda_returns_of self imag_reward imag_value
                                      discount_arr)) in
      let weight (t i : nat) : Qc :=
        big_prod 1 t (λ k, get2 (data discount_arr) k i) in
      (∀ t i, (t < H)%nat → (i < N)%nat →
         get2 (data (discount_weights discount_arr)) t i = weight t i)
      ∧ data actor_loss
        = - big_sum H (λ t,
              big_sum N (λ i,
                weight t i
                * (lambda_return t i
                   + actor_entropy_scale self * get2 (data policy_entropy) t i))
              / of_nat N).
Proof.
  intros Him Hms Hent Hdm Hnet.
  destruct (imagined_reward_value_data self imag_modelstates value_params
              Hnet) as (r & v & Hrv & Hr & Hv).
  destruct (imagined_discount_ok self imag_modelstates discount_model Hdm)
    as (d & Hd & Hdd & _).
  exists r, v, d. eexists _, _.
  split; [exact Hrv|]. split; [exact Hd|].
  split. { unfold actorcritc_loss. rewrite Him, Hrv. cbn. rewrite Hd. reflexivity. }
  split. { intros t i s Hs. by rewrite Hdd, !at2_map, Hs. }
  assert (Sr : shape (S H) N (data r))
    by (rewrite Hr; by do 2 apply shape_map).
  assert (Sv : shape (S H) N (data v))
    by (rewrite Hv; by apply shape_map).
  assert (Sd : shape (S H) N (data d))
    by (rewrite Hdd; by do 2 apply shape_map).
  pose proof (shape_compute_return _ _ _ (lambda_ self) _ _ Sr Sv Sd) as SR.
  pose proof (shape_discount_weights _ _ _ Sd) as SW.
  pose proof (shape_but_last _ _ _ Hent) as SE.
  replace (S H - 1)%nat with H in SE by lia.
  cbn zeta. split.
  - intros t i Ht Hi. by apply (discount_weights_get _ H N).
  - cbn [data actor_loss_of lift1 lift2 discount_weights lambda_returns_of
           fst snd].
    f_equal.
    rewrite (sum_mean_dim1_index H N).
    2:{ apply shape_zip; [done|]. apply shape_zip; [done|].
        by apply shape_map. }
    apply big_sum_ext. intros t Ht. f_equal.
    apply big_sum_ext. intros i Hi.
    unfold mul2, add2, scale2.
    rewrite (get2_zip _ H N); try done.
    2:{ apply shape_zip; [done|]. by apply shape_map. }
    rewrite (get2_zip _ H N); try done.
    2:{ by apply shape_map. }
    rewrite (get2_map _ H N); try done.
    rewrite get2_but_last by (destruct Hent as [-> _]; lia).
    rewrite (discount_weights_get _ H N) by done.
    reflexivity.
Qed.

(** *** Properties of the representation loss *)

(** C5.  For an observed batch of [L] steps and [B] samples,
    [representation_loss] scores the observation at every index [t < L]
    under the distribution decoded from the posterior model state at [t],
    whereas the reward and the non-terminal indicator at index [t + 1] are
    scored under the distributions decoded from the posterior model state
    at [t], for [t] in [0 .. L - 2]. *)
Theorem reward_discount_one_step_behind (self : Trainer)
    (obs actions : list (list vec)) (rewards nonterms : tensor2) (L B : nat)
    (prior posterior : Tensor (list (list LatentState)))
    (discount_model : StateDict) :
  DiscountModel self = Some discount_model →
  observe self obs actions = (prior, posterior) →
  shape L B (data posterior) →
  shape L B obs →
  shape L B rewards →
  shape L B nonterms →
  ∃ model_loss div obs_loss reward_loss pcont_loss prior_dist post_dist,
    representation_loss self obs actions rewards nonterms
    = Ok (model_loss, div, obs_loss, reward_loss, pcont_loss,
          prior_dist, post_dist, posterior)
    ∧ let modelstate (t b : nat) : vec :=
        get_modelstate (state_at (data posterior) t b) in
      data obs_loss
      = - (big_sum L (λ t, big_sum B (λ b,
             log_prob (ObsDecoder_forward (ObsDecoder self) (modelstate t b))
                      (vec_at obs t b)))
           / of_nat (L * B))
      ∧ data reward_loss
        = - (big_sum (L - 1) (λ t, big_sum B (λ b,
               log_prob (RewardDecoder_forward (RewardDecoder self)
                                               (modelstate t b))
                        (get2 rewards (S t) b)))
             / of_nat ((L - 1) * B))
      ∧ data pcont_loss
        = - (big_sum (L - 1) (λ t, big_sum B (λ b,
               log_prob (DiscountModel_forward discount_model
                                               (modelstate t b))
                        (get2 nonterms (S t) b)))
             / of_nat ((L - 1) * B)).
Proof.
  intros Hdm Hobs Sp So Sr Sn.
  destruct (representation_loss_unfold self obs actions rewards nonterms
              discount_model prior posterior Hdm Hobs)
    as (od & rd & pd & _ & Hod & Hrd & Hpd & Hrun).
  eexists _, _, _, _, _, _, _. split; [exact Hrun|]. cbn zeta.
  pose proof (shape_map get_modelstate L B _ Sp) as Sm.
  pose proof (shape_but_last L B _ Sm) as Sm'.
  pose proof (shape_from_1 L B _ Sr) as Sr'.
  pose proof (shape_from_1 L B _ Sn) as Sn'.
  assert (Hms : ∀ t b, (t < L)%nat → (b < B)%nat →
            at2 (map (map get_modelstate) (data posterior)) t b
            = Some (get_modelstate (state_at (data posterior) t b))).
  { intros t b Ht Hb.
    by rewrite at2_map, (at2_shape_default_state _ L B) by done. }
  assert (Hms' : ∀ t b, (t < L - 1)%nat → (b < B)%nat →
            at2 (but_last (map (map get_modelstate) (data posterior))) t b
            = Some (get_modelstate (state_at (data posterior) t b))).
  { intros t b Ht Hb. rewrite at2_but_last.
    - apply Hms; [lia | done].
    - destruct Sm as [-> _]. lia. }
  split; [|split].
  - cbn [data _obs_loss mean_all lift1]. f_equal. rewrite Hod.
    apply mean_log_prob_index.
    + by apply shape_map.
    + done.
    + intros t b Ht Hb. by rewrite at2_map, Hms.
    + intros t b Ht Hb. by apply (at2_shape_default_vec _ L B).
  - cbn [data _reward_loss mean_all lift1]. f_equal. rewrite Hrd.
    apply mean_log_prob_index.
    + by apply shape_map.
    + done.
    + intros t b Ht Hb. by rewrite at2_map, Hms'.
    + intros t b Ht Hb. rewrite at2_from_1.
      apply (at2_shape_default _ L B); [done | lia | done].
  - cbn [data _pcont_loss mean_all lift1]. f_equal. rewrite Hpd.
    apply mean_log_prob_index.
    + by apply shape_map.
    + done.
    + intros t b Ht Hb. by rewrite at2_map, Hms'.
    + intros t b Ht Hb. rewrite at2_from_1.
      apply (at2_shape_default _ L B); [done | lia | done].
Qed.

(** C6.  The total world-model loss returned by [representation_loss] is
    [kl_scale * KL + reward_loss + obs_loss + pcont_scale * pcont_loss];
    the KL term is the one [_kl_loss] computes, and each of the other
    three is the negative mean log-likelihood of its target (the
    observations, the rewards shifted by one step, the non-terminal
    indicators shifted by one step) under the decoded distribution. *)
Theorem model_loss_weighted_sum (self : Trainer)
    (obs actions : list (list vec)) (rewards nonterms : tensor2)
    (discount_model : StateDict) :
  DiscountModel self = Some discount_model →
  ∃ model_loss div obs_loss reward_loss pcont_loss prior_dist post_dist
    prior posterior obs_dist reward_dist pcont_dist,
    representation_loss self obs actions rewards nonterms
    = Ok (model_loss, div, obs_loss, reward_loss, pcont_loss,
          prior_dist, post_dist, posterior)
    ∧ observe self obs actions = (prior, posterior)
    ∧ decode_posterior self posterior = Ok (obs_dist, reward_dist, pcont_dist)
    ∧ _kl_loss self prior posterior = (prior_dist, post_dist, div)
    ∧ data model_loss
      = kl_scale self * data div + data reward_loss + data obs_loss
        + pcont_scale self * data pcont_loss
    ∧ data obs_loss = - torch_mean (concat (log_prob2 (data obs_dist) obs))
    ∧ data reward_loss
      = - torch_mean (concat (log_prob2 (data reward_dist) (from_1 rewards)))
    ∧ data pcont_loss
      = - torch_mean (concat (log_prob2 (data pcont_dist) (from_1 nonterms))).
Proof.
  intros Hdm.
  destruct (observe self obs actions) as [prior posterior] eqn:Hobs.
  destruct (representation_loss_unfold self obs actions rewards nonterms
              discount_model prior posterior Hdm Hobs)
    as (od & rd & pd & Hdec & _ & _ & _ & Hrun).
  eexists _, _, _, _, _, _, _, prior, posterior, od, rd, pd.
  split; [exact Hrun|]. split; [reflexivity|]. split; [exact Hdec|].
  split; [by destruct (_kl_loss self prior posterior) as [[? ?] ?]|].
  repeat split.
Qed.

(** C3.  The balanced KL loss with balance [0.5] has the same value as the
    plain mean KL divergence of the posterior from the prior that
    [_kl_loss] computes when KL balancing is off (in exact arithmetic;
    [stopgrad] changes gradient paths, not values). *)
Theorem balanced_kl_half_equals_plain (self_balanced self_plain : Trainer)
    (prior posterior : Tensor (list (list LatentState))) :
  kl_balancing_scale self_balanced = Some half →
  kl_balancing_scale self_plain = None →
  data (snd (_kl_loss self_balanced prior posterior))
  = data (snd (_kl_loss self_plain prior posterior)).
Proof.
  intros Hbal Hplain. unfold _kl_loss. rewrite Hbal, Hplain.
  cbn [snd data lift1 lift2 mean_all kl2 rssm_detach detach].
  unfold half. field.
Qed.

(** *** What leaves the configuration alone *)

Lemma configuration_set_submodel (key : string) (v m : StateDict)
    (s : Trainer) :
  get_submodel key s = Some m →
  configuration (set_submodel key v s) = configuration s.
Proof.
  intros Hm. unfold configuration, set_submodel. cbn.
  destruct (decide (key = "DiscountModel")) as [->|Hne]; [|reflexivity].
  change (DiscountModel s = Some m) in Hm. by rewrite Hm.
Qed.

Lemma bool_decide_eq_iff (P Q : Prop) `{!Decision P, !Decision Q} :
  bool_decide P = bool_decide Q → (P ↔ Q).
Proof.
  intros Heq. by rewrite <- (bool_decide_spec P), <- (bool_decide_spec Q), Heq.
Qed.

Lemma configuration_attributes (s s' : Trainer) :
  configuration s' = configuration s →
  (is_Some (TargetValueModel s') ↔ is_Some (TargetValueModel s))
  ∧ (is_Some (DiscountModel s') ↔ is_Some (DiscountModel s)).
Proof.
  unfold configuration. intros Hc. injection Hc; intros Hd Ht; intros.
  split; [exact (bool_decide_eq_iff _ _ Ht) | exact (bool_decide_eq_iff _ _ Hd)].
Qed.

Lemma well_formed_configuration (s s' : Trainer) :
  configuration s' = configuration s → well_formed s → well_formed s'.
Proof.
  intros Hc (Hdm & Htv & Hw & Ha & Hv & Hac & Hmo & Hao & Hvo & Hrg).
  destruct (configuration_attributes s s' Hc) as [Ht Hd].
  unfold configuration in Hc. injection Hc; intros.
  unfold well_formed.
  repeat split; try congruence.
  - by apply Hd.
  - intros H'. apply Ht, Htv in H'. congruence.
  - intros H'. apply Ht, Htv. congruence.
  - replace (use_fixed_target s') with (use_fixed_target s) by congruence.
    congruence.
Qed.


(** *** Further properties of the losses *)

Lemma well_formed_networks (self : Trainer) :
  well_formed self →
  ∃ discount_model value_params,
    DiscountModel self = Some discount_model
    ∧ (if use_fixed_target self then TargetValueModel self
       else Some (ValueModel self)) = Some value_params.
Proof.
  clear. intros ([dm Hdm] & Htv & _).
  destruct (use_fixed_target self) eqn:Hfix.
  - destruct (proj2 Htv eq_refl) as [t Ht]. by exists dm, t.
  - by exists dm, (ValueModel self).
Qed.

(** X9.  Attribute lookups of the two losses.  On a trainer set up by
    construction neither [representation_loss] nor [actorcritc_loss] fails
    with an [AttributeError]: the sub-models they read are all there, the
    target-value network included when [use_fixed_target] is on.  Without
    the invariant they do not return: [actorcritc_loss] returns no losses
    when [use_fixed_target] is on and there is no target-value network. *)
Theorem losses_attribute_lookups (self : Trainer) (obs actions : list (list vec))
    (rewards nonterms : tensor2)
    (posterior : Tensor (list (list LatentState))) :
  (well_formed self →
   ∀ attr,
     representation_loss self obs actions rewards nonterms
     ≠ Raise (AttributeError attr)
     ∧ actorcritc_loss self posterior ≠ Raise (AttributeError attr))
  ∧ (use_fixed_target self = true → TargetValueModel self = None →
     ∀ out, actorcritc_loss self posterior ≠ Ok out).
Proof.
  split.
  - intros Hwf attr.
    destruct (well_formed_networks self Hwf) as (dm & vp & Hdm & Hnet).
    split.
    + destruct (observe self obs actions) as [prior post] eqn:Hobs.
      destruct (representation_loss_unfold self obs actions rewards nonterms
                  dm prior post Hdm Hobs)
        as (od & rd & pd & _ & _ & _ & _ & Hrun).
      rewrite Hrun. discriminate.
    + unfold actorcritc_loss.
      destruct (imagine self posterior) as [ms ent].
      destruct (imagined_reward_value_data self ms vp Hnet)
        as (r & v & Hrv & _).
      destruct (imagined_discount_ok self ms dm Hdm) as (d & Hd & _).
      rewrite Hrv. cbn. rewrite Hd. cbn. discriminate.
  - intros Hfixed Hnone out. unfold actorcritc_loss.
    destruct (imagine self posterior) as [ms ent].
    unfold imagined_reward_value. rewrite Hfixed, Hnone. cbn. discriminate.
Qed.

(** X10.  Gradient isolation of the two imagined losses: on a trainer set
    up by construction, a backward pass from the actor loss reaches the
    parameters of the action model and of nothing else (the world model and
    the value networks are frozen while it is built), and a backward pass
    from the value loss reaches the value network only, whatever gradient
    paths the posterior carried. *)
Theorem actor_critic_gradient_isolation (self : Trainer)
    (posterior : Tensor (list (list LatentState))) :
  well_formed self →
  ∃ actor_loss value_loss,
    actorcritc_loss self posterior = Ok (actor_loss, value_loss)
    ∧ grad_deps actor_loss = {[pActionModel]}
    ∧ grad_deps value_loss = {[pValueModel]}.
Proof.
  intros Hwf.
  destruct (well_formed_networks self Hwf) as (dm & vp & Hdm & Hnet).
  destruct Hwf as (_ & _ & Hw & _ & Hv & _ & _ & _ & _ & Hrg).
  unfold actorcritc_loss, imagine, imagined_reward_value, imagined_discount.
  rewrite Hdm, Hw, Hv, Hrg.
  destruct (use_fixed_target self); cbn iota in Hnet; rewrite ?Hnet;
    cbn [getattr mbind mret result_bind result_ret];
    eexists _, _; (split; [reflexivity|]);
    cbn [grad_deps actor_loss_of value_loss_of lift1 lift2 detach call];
    rewrite ?Hrg; split; vm_compute; reflexivity.
Qed.

(** X11.  The value of the KL loss does not depend on the balancing
    scale: with or without KL balancing, and for every balance, [_kl_loss]
    returns the mean KL divergence of the posterior from the prior;
    balancing changes how gradients are weighted, not the number.  In both
    modes the loss carries the gradient paths of the prior and of the
    posterior. *)
Theorem kl_loss_value_ignores_balance (self : Trainer)
    (prior posterior : Tensor (list (list LatentState))) :
  data (snd (_kl_loss self prior posterior))
  = torch_mean
      (concat (zip_with (zip_with kl_divergence)
                 (map (map get_dist) (data posterior))
                 (map (map get_dist) (data prior))))
  ∧ grad_deps (snd (_kl_loss self prior posterior))
    = grad_deps prior ∪ grad_deps posterior.
Proof.
  unfold _kl_loss. destruct (kl_balancing_scale self) as [balance|].
  - cbn [snd data grad_deps lift1 lift2 mean_all kl2 rssm_detach detach].
    split; [ring|]. clear. set_solver.
  - cbn [snd data grad_deps lift1 lift2 mean_all kl2 rssm_detach detach].
    split; [reflexivity|]. clear. set_solver.
Qed.

(** X12.  [actorcritc_loss] reads the posterior only through the batch
    that [rssm_seq_to_batch] builds from it with [seq_len - 1] steps, taken
    under [torch.no_grad()] and detached: for [seq_len] of at least one,
    two posteriors that give the same batch give the same losses, whatever
    gradient paths they carry. *)
Theorem actorcritc_loss_reads_detached_batch (self : Trainer)
    (posterior1 posterior2 : Tensor (list (list LatentState))) :
  (1 ≤ seq_len self)%nat →
  rssm_seq_to_batch (data posterior1) (batch_size self) (seq_len self - 1)
  = rssm_seq_to_batch (data posterior2) (batch_size self) (seq_len self - 1) →
  actorcritc_loss self posterior1 = actorcritc_loss self posterior2.
Proof.
  intros _ Hsame.
  assert (Him : imagine self posterior1 = imagine self posterior2).
  { unfold imagine, rssm_detach, detach, lift1, call.
    cbn [data grad_deps]. by rewrite Hsame. }
  unfold actorcritc_loss. by rewrite Him.
Qed.

Lemma get2_map_vec (f : vec → Qc) (T N : nat) (x : list (list vec))
    (t i : nat) :
  shape T N x → (t < T)%nat → (i < N)%nat →
  get2 (map (map f) x) t i = f (vec_at x t i).
Proof.
  intros Hx Ht Hi. unfold get2.
  by rewrite at2_map, (at2_shape_default_vec x T N) by done.
Qed.

Lemma vec_at_but_last (x : list (list vec)) (t i : nat) :
  (S t < length x)%nat → vec_at (but_last x) t i = vec_at x t i.
Proof. intros Ht. unfold vec_at. by rewrite at2_but_last. Qed.

(** X13.  For every imagined rollout of [H + 1] steps over [N] samples,
    the value loss returned by [actorcritc_loss] is the sum, over the
    steps [t < H] and the samples, of
    [0.5 * (weight t i * (lambda_return t i - prediction t i)) ^ 2], where
    the prediction is always made by the live value network, also when the
    targets were bootstrapped from the target network.  It is [H * N] times
    the mean of these terms. *)
Theorem value_loss_sum_of_terms (self : Trainer)
    (posterior : Tensor (list (list LatentState)))
    (imag_modelstates : Tensor (list (list vec)))
    (policy_entropy : Tensor tensor2)
    (discount_model value_params : StateDict) (H N : nat) :
  imagine self posterior = (imag_modelstates, policy_entropy) →
  shape (S H) N (data imag_modelstates) →
  DiscountModel self = Some discount_model →
  (if use_fixed_target self then TargetValueModel self
   else Some (ValueModel self)) = Some value_params →
  ∃ imag_reward imag_value discount_arr actor_loss value_loss,
    imagined_reward_value self imag_modelstates = Ok (imag_reward, imag_value)
    ∧ imagined_discount self imag_modelstates = Ok discount_arr
    ∧ actorcritc_loss self posterior = Ok (actor_loss, value_loss)
    ∧ let lambda_returns :=
        lambda_returns_of self imag_reward imag_value discount_arr in
      let weights := discount_weights discount_arr in
      data value_loss
      = big_sum H (λ t, big_sum N (λ i,
          half * (get2 (data weights) t i
                  * (get2 (data lambda_returns) t i
                     - ValueModel_forward (ValueModel self)
                         (vec_at (data imag_modelstates) t i))) ^ 2))
      ∧ ((H * N)%nat ≠ 0%nat →
         data value_loss
         = of_nat (H * N)
           * value_loss_mean_squared_error self (data imag_modelstates)
               (data weights) (data lambda_returns)).
Proof.
  intros Him Hms Hdm Hnet.
  destruct (imagined_reward_value_data self imag_modelstates value_params
              Hnet) as (r & v & Hrv & Hr & Hv).
  destruct (imagined_discount_ok self imag_modelstates discount_model Hdm)
    as (d & Hd & Hdd & _).
  exists r, v, d. eexists _, _.
  split; [exact Hrv|]. split; [exact Hd|].
  split. { unfold actorcritc_loss. rewrite Him, Hrv. cbn. rewrite Hd. reflexivity. }
  assert (Sr : shape (S H) N (data r))
    by (rewrite Hr; by do 2 apply shape_map).
  assert (Sv : shape (S H) N (data v))
    by (rewrite Hv; by apply shape_map).
  assert (Sd : shape (S H) N (data d))
    by (rewrite Hdd; by do 2 apply shape_map).
  pose proof (shape_compute_return _ _ _ (lambda_ self) _ _ Sr Sv Sd) as SR.
  pose proof (shape_discount_weights _ _ _ Sd) as SW.
  pose proof (shape_but_last _ _ _ Hms) as SM.
  replace (S H - 1)%nat with H in SM by lia.
  cbn zeta.
  destruct (value_loss_unnormalised self imag_modelstates
              (discount_weights d) (lambda_returns_of self r v d))
    as (Hsum & Hmean & _).
  cbn zeta in Hsum, Hmean.
  set (terms := scale2 half
                  (square2
                     (mul2 (data (discount_weights d))
                        (sub2 (data (lambda_returns_of self r v d))
                           (map (map (ValueModel_forward (ValueModel self)))
                              (but_last (data imag_modelstates)))))))
    in *.
  assert (SP : shape H N (map (map (ValueModel_forward (ValueModel self)))
                            (but_last (data imag_modelstates))))
    by by apply shape_map.
  assert (ST : shape H N terms).
  { unfold terms, scale2, square2. do 2 apply shape_map.
    apply shape_zip; [exact SW|]. by apply shape_zip. }
  split.
  - rewrite Hsum. unfold torch_sum.
    rewrite (sum_concat_index H N) by exact ST.
    apply big_sum_ext. intros t Ht. apply big_sum_ext. intros i Hi.
    unfold terms, scale2, square2, mul2, sub2.
    rewrite (get2_map _ H N); try done.
    2:{ apply shape_map. apply shape_zip; [exact SW|]. by apply shape_zip. }
    rewrite (get2_map _ H N); try done.
    2:{ apply shape_zip; [exact SW|]. by apply shape_zip. }
    rewrite (get2_zip _ H N); try done.
    2:{ by apply shape_zip. }
    rewrite (get2_zip _ H N); try done.
    rewrite (get2_map_vec _ H N); try done.
    rewrite vec_at_but_last by (destruct Hms as [-> _]; lia).
    reflexivity.
  - intros Hne. rewrite <- (length_concat_shape H N terms ST).
    apply Hmean. by rewrite (length_concat_shape H N terms ST).
Qed.

(** X14.  On a trainer set up by construction, a backward pass from the
    world-model loss reaches exactly the five sub-models of [world_list]
    (observation encoder, RSSM, reward decoder, observation decoder,
    discount model) and never the actor or a value network; the posterior
    it returns still carries the gradient paths of the encoder and the
    RSSM. *)
Theorem model_loss_gradient (self : Trainer) (obs actions : list (list vec))
    (rewards nonterms : tensor2) :
  well_formed self →
  ∃ model_loss div obs_loss reward_loss pcont_loss prior_dist post_dist
    posterior,
    representation_loss self obs actions rewards nonterms
    = Ok (model_loss, div, obs_loss, reward_loss, pcont_loss,
          prior_dist, post_dist, posterior)
    ∧ grad_deps model_loss = list_to_set (world_list self)
    ∧ grad_deps posterior = {[pObsEncoder; pRSSM]}.
Proof.
  intros Hwf.
  destruct (well_formed_networks self Hwf) as (dm & vp & Hdm & _).
  destruct Hwf as (_ & _ & Hw & _ & _ & _ & _ & _ & _ & Hrg).
  unfold representation_loss, observe, decode_posterior.
  rewrite Hdm, Hw, Hrg.
  cbn [getattr mbind mret result_bind result_ret].
  destruct (kl_balancing_scale self) as [balance|] eqn:Hkl;
    unfold _kl_loss; rewrite Hkl;
    eexists _, _, _, _, _, _, _, _; (split; [reflexivity|]);
    split; vm_compute; reflexivity.
Qed.

(** *** Properties of the training loop *)

Lemma configuration_set_module (m : submodel) (v old : StateDict)
    (s : Trainer) :
  get_module m s = Some old →
  configuration (set_module m v s) = configuration s.
Proof.
  intros Hold. destruct m; cbn [set_module];
    try (by eapply configuration_set_submodel).
  - cbn in Hold. rewrite Hold. unfold configuration. cbn. by rewrite Hold.
  - cbn in Hold. rewrite Hold. by eapply configuration_set_submodel.
Qed.

Lemma configuration_optimizer_step (opt : Adam)
    (new_params : submodel → StateDict → StateDict) (s : Trainer) :
  configuration (optimizer_step opt new_params s) = configuration s.
Proof.
  unfold optimizer_step.
  induction (adam_params opt) as [|m ms IH]; [reflexivity|].
  cbn [foldr].
  destruct (get_module m (foldr _ s ms)) as [old|] eqn:Hold; [|exact IH].
  rewrite <- IH. by eapply configuration_set_module.
Qed.

Lemma configuration_fields (s s' : Trainer) :
  configuration s' = configuration s →
  seq_len s' = seq_len s ∧ batch_size s' = batch_size s
  ∧ collect_intervals s' = collect_intervals s.
Proof.
  unfold configuration. intros Hc. injection Hc; intros. by repeat split.
Qed.


Lemma train_iteration_inv (self self' : Trainer) (st st' : OptimState)
    (buffer buffer' : Buffer) (it : IterationLosses) :
  train_iteration self st buffer = Ok (self', st', buffer', it) →
  configuration self' = configuration self
  ∧ buffer' = snd (buffer_sample buffer (seq_len self) (batch_size self)).
Proof.
  unfold train_iteration. intros Hrun.
  destruct (buffer_sample buffer (seq_len self) (batch_size self))
    as [[[[obs actions] rewards] terms] b1].
  destruct (representation_loss self obs actions rewards _)
    as [[[[[[[[ml kl] ol] rl] pl] pd] qd] post]|e]; [|discriminate].
  cbn [mbind mret result_bind result_ret] in Hrun.
  destruct (model_optimizer self) as [mo|]; [|discriminate].
  cbn [getattr mbind mret result_bind result_ret] in Hrun.
  destruct (adam_update st mo (grad_clip_norm self) [ml] self) as [nw st1].
  destruct (actorcritc_loss (optimizer_step mo nw self) post)
    as [[al vl]|e]; [|discriminate].
  cbn [mbind mret result_bind result_ret] in Hrun.
  destruct (actor_optimizer (optimizer_step mo nw self)) as [ao|];
    [|discriminate].
  cbn [getattr mbind mret result_bind result_ret] in Hrun.
  destruct (value_optimizer (optimizer_step mo nw self)) as [vo|];
    [|discriminate].
  cbn [getattr mbind mret result_bind result_ret] in Hrun.
  destruct (adam_update st1 ao _ [al; vl] _) as [na st2].
  destruct (adam_update st2 vo _ [al; vl] _) as [nv st3].
  injection Hrun as <- _ <- _. split; [|reflexivity].
  by rewrite !configuration_optimizer_step.
Qed.

Lemma train_loop_inv (n : nat) :
  ∀ (self self' : Trainer) (st st' : OptimState) (buffer buffer' : Buffer)
    (done its : list IterationLosses),
    train_loop n self st buffer done = Ok (self', st', buffer', its) →
    configuration self' = configuration self
    ∧ buffer' = Nat.iter n
                  (λ b, snd (buffer_sample b (seq_len self) (batch_size self)))
                  buffer.
Proof.
  induction n as [|n IH]; intros self self' st st' buffer buffer' done its Hrun.
  - cbn in Hrun. by injection Hrun as <- _ <- _.
  - cbn [train_loop] in Hrun.
    destruct (train_iteration self st buffer) as [[[[s1 st1] b1] it]|e] eqn:Hit;
      [|discriminate].
    cbn [mbind mret result_bind result_ret] in Hrun.
    destruct (train_iteration_inv _ _ _ _ _ _ _ Hit) as [Hc1 ->].
    destruct (IH _ _ _ _ _ _ _ _ Hrun) as [Hc2 ->].
    destruct (configuration_fields _ _ Hc1) as (Hs & Hb & _).
    rewrite Hs, Hb. split; [by rewrite Hc2|].
    by rewrite Nat.iter_succ_r.
Qed.

(** X15.  When [train_batch] returns, it has drawn exactly
    [collect_intervals] batches, each by [sample(seq_len, batch_size)], and
    it has changed parameter values only: hyper-parameters, module lists,
    optimisers' parameter groups and gradient flags are as before, so a
    trainer that satisfied the construction invariant satisfies it again
    for the next call. *)
Theorem train_batch_preserves_configuration (self self' : Trainer)
    (st st' : OptimState) (buffer buffer' : Buffer)
    (train_metrics train_metrics' : gmap string npfloat) :
  train_batch self st buffer train_metrics
  = Ok (self', st', buffer', train_metrics') →
  configuration self' = configuration self
  ∧ buffer' = Nat.iter (collect_intervals self)
                (λ b, snd (buffer_sample b (seq_len self) (batch_size self)))
                buffer
  ∧ (well_formed self → well_formed self').
Proof.
  unfold train_batch. intros Hrun.
  destruct (train_loop (collect_intervals self) self st buffer [])
    as [[[[s1 st1] b1] its]|e] eqn:Hloop; [|discriminate].
  cbn [mbind mret result_bind result_ret] in Hrun.
  injection Hrun as <- _ <- _.
  destruct (train_loop_inv _ _ _ _ _ _ _ _ _ Hloop) as [Hc ->].
  split; [exact Hc|]. split; [reflexivity|].
  by apply well_formed_configuration.
Qed.


End Losses.

(** ** Construction, target update and checkpoints *)

Lemma toy_trainer_constructed (fixed_target kl_balancing : bool) :
  __init__ toy_fresh 1 (toy_config fixed_target true kl_balancing) false
  = Ok (toy_trainer fixed_target kl_balancing).
Proof. destruct fixed_target, kl_balancing; reflexivity. Qed.

Lemma init_ok_inv (fresh : submodel → StateDict) (action_size_ : nat)
    (cfg : TrainingConfig) (pixels_ : bool) (self : Trainer) :
  __init__ fresh action_size_ cfg pixels_ = Ok self →
  pixels_ = false
  ∧ cfg_use_discount_model cfg = true
  ∧ DiscountModel self = Some (fresh pDiscountModel)
  ∧ ValueModel self = fresh pValueModel
  ∧ use_fixed_target self = cfg_use_fixed_target cfg
  ∧ TargetValueModel self
    = (if cfg_use_fixed_target cfg then Some (fresh pValueModel) else None).
Proof.
  unfold __init__. destruct pixels_; [discriminate|].
  cbn [negb mbind mret result_bind result_ret].
  unfold optim_initialize.
  destruct (cfg_use_discount_model cfg); [|discriminate].
  destruct (cfg_use_fixed_target cfg); cbn; intros [= <-]; by repeat split.
Qed.

(** C2 (as amended).  When [use_discount_model] is off, constructing a
    Trainer always fails: with [pixels=False] by an attribute error on
    [DiscountModel], raised by [optim_initialize]; with [pixels=True] by
    [NotImplementedError], raised before [optim_initialize] runs.  Hence
    every Trainer that finishes construction was built with the flag on and
    has a discount model. *)
Theorem discount_model_cannot_be_disabled (fresh : submodel → StateDict)
    (action_size_ : nat) (cfg : TrainingConfig) (pixels_ : bool) :
  (cfg_use_discount_model cfg = false →
   __init__ fresh action_size_ cfg pixels_
   = Raise (if pixels_ then NotImplementedError
            else AttributeError "DiscountModel"))
  ∧ (∀ self, __init__ fresh action_size_ cfg pixels_ = Ok self →
       cfg_use_discount_model cfg = true ∧ is_Some (DiscountModel self)).
Proof.
  split.
  - intros Hflag. destruct pixels_; [reflexivity|].
    unfold __init__. rewrite Hflag. reflexivity.
  - intros self Hinit.
    destruct (init_ok_inv _ _ _ _ _ Hinit) as (_ & Hflag & Hdm & _).
    split; [exact Hflag | by rewrite Hdm].
Qed.

(** C8.  [update_target] succeeds whenever the trainer has a target-value
    network, leaves the value network as it is, and afterwards every
    parameter tensor of the target equals the one of the value network: a
    full copy, whatever the target held before.  The same equality holds
    for the trainer that [__init__] returns when [use_fixed_target] is on. *)
Theorem update_target_hard_copy :
  (∀ self target_before,
     TargetValueModel self = Some target_before →
     ∃ self', update_target self = Ok self'
              ∧ ValueModel self' = ValueModel self)
  ∧ (∀ self self', update_target self = Ok self' → target_equals_value self')
  ∧ (∀ fresh action_size_ cfg pixels_ self,
       cfg_use_fixed_target cfg = true →
       __init__ fresh action_size_ cfg pixels_ = Ok self →
       target_equals_value self).
Proof.
  split; [|split].
  - intros self tb Htb. unfold update_target. rewrite Htb. cbn.
    eexists. split; reflexivity.
  - intros self self'. unfold update_target.
    destruct (TargetValueModel self) as [tb|]; [|discriminate].
    cbn. intros [= <-]. exists (ValueModel self). split; reflexivity.
  - intros fresh a cfg p self Hfix Hinit.
    destruct (init_ok_inv _ _ _ _ _ Hinit) as (_ & _ & _ & Hv & _ & Ht).
    rewrite Hfix in Ht. exists (fresh pValueModel). rewrite Hv. by split.
Qed.

(** C9.  The entry points that are unsupported by design raise
    [NotImplementedError] on every call: constructing a Trainer with
    [pixels=True], [save_model] for every save name, and the standalone
    [_actor_loss] and [_value_loss]. *)
Theorem unsupported_entry_points_raise :
  (∀ fresh action_size_ cfg,
     __init__ fresh action_size_ cfg true = Raise NotImplementedError)
  ∧ (∀ self save_name, save_model self save_name = Raise NotImplementedError)
  ∧ (∀ self, _actor_loss self = Raise NotImplementedError)
  ∧ (∀ self, _value_loss self = Raise NotImplementedError).
Proof. repeat split. Qed.

(** *** Loading a checkpoint *)

Lemma load_save_dict_fold (self : Trainer) (saved_dict : gmap string StateDict) :
  load_save_dict self saved_dict = load_all load_order saved_dict (self, Ok ()).
Proof. reflexivity. Qed.

Lemma load_all_raise (keys : list string) (saved_dict : gmap string StateDict)
    (self : Trainer) (e : exn) :
  load_all keys saved_dict (self, Raise e) = (self, Raise e).
Proof. induction keys as [|k keys IH]; [reflexivity | exact IH]. Qed.

Lemma get_set_same (key : string) (v : StateDict) (self : Trainer) :
  key ∈ load_order → get_submodel key (set_submodel key v self) = Some v.
Proof.
  intros Hkey. unfold load_order in Hkey.
  repeat (apply elem_of_cons in Hkey as [->|Hkey]; [reflexivity|]).
  by apply elem_of_nil in Hkey.
Qed.

Lemma get_set_other (key key' : string) (v : StateDict) (self : Trainer) :
  key ≠ key' →
  get_submodel key' (set_submodel key v self) = get_submodel key' self.
Proof.
  intros Hne. unfold get_submodel, set_submodel. cbn.
  repeat (destruct (decide (key' = _)) as [->|];
          [by rewrite decide_False by done|]).
  reflexivity.
Qed.

Lemma load_all_present (keys : list string) (saved_dict : gmap string StateDict) :
  ∀ self : Trainer,
    NoDup keys →
    (∀ k, k ∈ keys →
          k ∈ load_order
          ∧ ∃ m sd, get_submodel k self = Some m
                    ∧ saved_dict !! k = Some sd ∧ fits m sd) →
    ∃ self', load_all keys saved_dict (self, Ok ()) = (self', Ok ())
             ∧ (∀ k, k ∈ keys → get_submodel k self' = saved_dict !! k)
             ∧ (∀ k, k ∉ keys → get_submodel k self' = get_submodel k self).
Proof.
  induction keys as [|key keys IH]; intros self Hnd Hkeys.
  - exists self. split; [reflexivity|]. split; [|done].
    intros k Hk. by apply elem_of_nil in Hk.
  - apply NoDup_cons in Hnd as [Hfresh Hnd].
    destruct (Hkeys key) as (Hvalid & m & v & Hm & Hv & Hfit); [by left|].
    destruct (IH (set_submodel key v self) Hnd) as (self' & Hrun & Hin & Hout).
    { intros k Hk. destruct (Hkeys k) as (Hkv & mk & sk & Hks & Hkd & Hkf);
        [by right|].
      split; [done|]. exists mk, sk. split; [|done].
      rewrite get_set_other; [done|]. intros ->. by apply Hfresh. }
    exists self'. split; [|split].
    + cbn [load_all foldl]. unfold load_one at 2, getitem.
      rewrite Hm, Hv. unfold load_state_dict_strict.
      rewrite decide_True by done. exact Hrun.
    + intros k Hk. apply elem_of_cons in Hk as [->|Hk]; [|by apply Hin].
      rewrite (Hout key Hfresh), Hv. by apply get_set_same.
    + intros k Hk. apply not_elem_of_cons in Hk as [Hne Hk].
      rewrite (Hout k Hk). by apply get_set_other.
Qed.

Lemma load_order_attrs (self : Trainer) (key : string) :
  is_Some (DiscountModel self) → key ∈ load_order →
  is_Some (get_submodel key self).
Proof.
  intros Hdm Hkey. unfold load_order in Hkey.
  repeat (apply elem_of_cons in Hkey as [->|Hkey]; [by eexists|]).
  apply elem_of_cons in Hkey as [->|Hkey]; [exact Hdm|].
  by apply elem_of_nil in Hkey.
Qed.

Lemma load_order_NoDup : NoDup load_order.
Proof. unfold load_order. repeat (constructor; [set_solver|]). constructor. Qed.

(** C10 (as amended).  [load_save_dict] restores the sub-models in the
    order [RSSM], [ObsEncoder], [ObsDecoder], [RewardDecoder],
    [ActionModel], [ValueModel], [DiscountModel].  When every entry passes
    the strict check of its sub-model, every sub-model ends up with the
    saved parameters.  If [missing] is the first key of that order that the
    saved dictionary lacks, and the entries before it pass the strict
    check, the call raises [KeyError missing]; the sub-models before it
    have already been overwritten with the saved parameters, [missing] and
    the ones after it are left as they were.  If instead the first entry
    that does not load is present but fails the strict check, the call
    raises [RuntimeError] there, again with the earlier sub-models
    overwritten and the later ones untouched. *)
Theorem load_save_dict_not_atomic (self : Trainer)
    (saved_dict : gmap string StateDict) :
  is_Some (DiscountModel self) →
  ((∀ k, k ∈ load_order → entry_fits self saved_dict k) →
   ∃ self', load_save_dict self saved_dict = (self', Ok ())
            ∧ ∀ k, k ∈ load_order → get_submodel k self' = saved_dict !! k)
  ∧ (∀ loaded missing rest,
       load_order = loaded ++ missing :: rest →
       (∀ k, k ∈ loaded → entry_fits self saved_dict k) →
       saved_dict !! missing = None →
       ∃ self', load_save_dict self saved_dict
                = (self', Raise (KeyError missing))
                ∧ (∀ k, k ∈ loaded → get_submodel k self' = saved_dict !! k)
                ∧ (∀ k, k ∈ missing :: rest →
                     get_submodel k self' = get_submodel k self))
  ∧ (∀ loaded bad rest m sd,
       load_order = loaded ++ bad :: rest →
       (∀ k, k ∈ loaded → entry_fits self saved_dict k) →
       get_submodel bad self = Some m → saved_dict !! bad = Some sd →
       ¬ fits m sd →
       ∃ self', load_save_dict self saved_dict
                = (self', Raise (RuntimeError bad))
                ∧ (∀ k, k ∈ loaded → get_submodel k self' = saved_dict !! k)
                ∧ (∀ k, k ∈ rest →
                     get_submodel k self' = get_submodel k self)).
Proof.
  intros Hdm. split; [|split].
  - intros Hall.
    destruct (load_all_present load_order saved_dict self load_order_NoDup)
      as (self' & Hrun & Hin & _).
    { intros k Hk. split; [done | by apply Hall]. }
    exists self'. by rewrite load_save_dict_fold.
  - intros loaded missing rest Horder Hloaded Hmissing.
    pose proof load_order_NoDup as Hnd. rewrite Horder in Hnd.
    apply NoDup_app in Hnd as (Hnd1 & Hdisj & Hnd2).
    assert (Hsub : ∀ k, k ∈ loaded → k ∈ load_order).
    { intros k Hk. rewrite Horder. apply elem_of_app. by left. }
    destruct (load_all_present loaded saved_dict self Hnd1)
      as (self' & Hrun & Hin & Hout).
    { intros k Hk. split; [by apply Hsub | by apply Hloaded]. }
    exists self'. split; [|split].
    + rewrite load_save_dict_fold, Horder. unfold load_all.
      rewrite foldl_app. fold (load_all loaded saved_dict (self, Ok ())).
      rewrite Hrun. cbn [foldl]. unfold load_one at 2, getitem.
      rewrite Hmissing.
      destruct (get_submodel missing self') as [m|] eqn:Hm.
      * apply load_all_raise.
      * exfalso.
        assert (Hnot : missing ∉ loaded).
        { intros Hk. apply (Hdisj _ Hk). by left. }
        rewrite (Hout _ Hnot) in Hm.
        destruct (load_order_attrs self missing Hdm) as [m' Hm'].
        { rewrite Horder. apply elem_of_app. right. by left. }
        congruence.
    + exact Hin.
    + intros k Hk. apply Hout. intros Hk'. by apply (Hdisj _ Hk').
  - intros loaded bad rest m sd Horder Hloaded Hm Hsd Hbad.
    pose proof load_order_NoDup as Hnd. rewrite Horder in Hnd.
    apply NoDup_app in Hnd as (Hnd1 & Hdisj & Hnd2).
    apply NoDup_cons in Hnd2 as [Hbadrest _].
    assert (Hsub : ∀ k, k ∈ loaded → k ∈ load_order).
    { intros k Hk. rewrite Horder. apply elem_of_app. by left. }
    assert (Hnot : bad ∉ loaded).
    { intros Hk. apply (Hdisj _ Hk). by left. }
    destruct (load_all_present loaded saved_dict self Hnd1)
      as (self' & Hrun & Hin & Hout).
    { intros k Hk. split; [by apply Hsub | by apply Hloaded]. }
    exists (set_submodel bad (partial_copy m sd) self'). split; [|split].
    + rewrite load_save_dict_fold, Horder. unfold load_all.
      rewrite foldl_app. fold (load_all loaded saved_dict (self, Ok ())).
      rewrite Hrun. cbn [foldl]. unfold load_one at 2, getitem.
      rewrite (Hout _ Hnot), Hm, Hsd. unfold load_state_dict_strict.
      rewrite decide_False by done. apply load_all_raise.
    + intros k Hk. rewrite get_set_other; [by apply Hin|].
      intros ->. by apply Hnot.
    + intros k Hk. rewrite get_set_other.
      * apply Hout. intros Hk'. apply (Hdisj _ Hk'). by right.
      * intros ->. by apply Hbadrest.
Qed.

(** ** Further properties of construction and checkpoints *)

Lemma TargetValueModel_set_submodel (key : string) (v : StateDict)
    (s : Trainer) :
  TargetValueModel (set_submodel key v s) = TargetValueModel s.
Proof. reflexivity. Qed.

Lemma load_one_frame (key : string) (saved_dict : gmap string StateDict)
    (st : Trainer * result unit) :
  configuration (fst (load_one key saved_dict st)) = configuration (fst st)
  ∧ TargetValueModel (fst (load_one key saved_dict st))
    = TargetValueModel (fst st).
Proof.
  destruct st as [s [[]|e]]; cbn; [|done].
  destruct (get_submodel key s) as [m|] eqn:Hm; [|done].
  destruct (getitem saved_dict key) as [sd|e]; [|done].
  destruct (load_state_dict_strict key m sd) as [m' outcome].
  cbn. split; [by eapply configuration_set_submodel | reflexivity].
Qed.

Lemma load_all_frame (keys : list string) (saved_dict : gmap string StateDict) :
  ∀ st : Trainer * result unit,
    configuration (fst (load_all keys saved_dict st)) = configuration (fst st)
    ∧ TargetValueModel (fst (load_all keys saved_dict st))
      = TargetValueModel (fst st).
Proof.
  induction keys as [|k keys IH]; intros st; [done|].
  cbn [load_all foldl].
  destruct (IH (load_one k saved_dict st)) as [Hc Ht].
  destruct (load_one_frame k saved_dict st) as [Hc1 Ht1].
  unfold load_all in Hc, Ht. split; congruence.
Qed.

Lemma load_save_dict_frame_both (self : Trainer)
    (saved_dict : gmap string StateDict) :
  configuration (fst (load_save_dict self saved_dict)) = configuration self.
Proof.
  rewrite load_save_dict_fold.
  exact (proj1 (load_all_frame load_order saved_dict (self, Ok ()))).
Qed.

Lemma configuration_update_target (self self' : Trainer) :
  update_target self = Ok self' → configuration self' = configuration self.
Proof.
  unfold update_target.
  destruct (TargetValueModel self) as [t|] eqn:Ht; [|discriminate].
  cbn. intros [= <-]. unfold configuration. cbn. by rewrite Ht.
Qed.

Lemma init_well_formed (fresh : submodel → StateDict) (action_size_ : nat)
    (cfg : TrainingConfig) (pixels_ : bool) (self : Trainer) :
  __init__ fresh action_size_ cfg pixels_ = Ok self → well_formed self.
Proof.
  unfold __init__. destruct pixels_; [discriminate|].
  cbn [negb mbind mret result_bind result_ret].
  unfold optim_initialize.
  destruct (cfg_use_discount_model cfg); [|discriminate].
  destruct (cfg_use_fixed_target cfg); cbn; intros [= <-];
    unfold well_formed; cbn; repeat split; try done; by eexists.
Qed.

Lemma reachable_is_well_formed (self : Trainer) :
  reachable self → well_formed self.
Proof.
  induction 1 as [fresh a cfg p self Hinit
                 | self self' _ IH Hup
                 | self saved_dict _ IH].
  - by eapply init_well_formed.
  - eapply well_formed_configuration; [|exact IH].
    by apply configuration_update_target.
  - eapply well_formed_configuration; [|exact IH].
    rewrite load_save_dict_fold.
    exact (proj1 (load_all_frame load_order saved_dict (self, Ok ()))).
Qed.

(** X1.  Whatever sequence of [update_target] calls and checkpoint loads
    (complete or failed) follows construction, the trainer keeps what
    [__init__] and [optim_initialize] set up: the discount model exists,
    the target-value network exists exactly when [use_fixed_target] is on,
    the module lists and the three optimisers are those of
    [optim_initialize], and every parameter requires gradients. *)
Theorem construction_invariant (self : Trainer) :
  reachable self → well_formed self.
Proof.
  induction 1 as [fresh a cfg p self Hinit
                 | self self' _ IH Hup
                 | self saved_dict _ IH].
  - by eapply init_well_formed.
  - apply (well_formed_configuration self); [|exact IH].
    by apply configuration_update_target.
  - apply (well_formed_configuration self); [|exact IH].
    apply load_save_dict_frame_both.
Qed.

Lemma get_save_dict_lookup (self : Trainer) (discount_model : StateDict) :
  DiscountModel self = Some discount_model →
  ∃ saved, get_save_dict self = Ok saved
           ∧ (∀ k, k ∈ load_order → saved !! k = get_submodel k self)
           ∧ dom saved = list_to_set load_order.
Proof.
  intros Hdm. unfold get_save_dict. rewrite Hdm. cbn.
  eexists. split; [reflexivity|]. split.
  - intros k Hk. unfold load_order in Hk.
    repeat (apply elem_of_cons in Hk as [->|Hk];
            [by simplify_map_eq|]).
    by apply elem_of_nil in Hk.
  - rewrite !dom_insert_L, dom_empty_L. unfold load_order. cbn. set_solver.
Qed.

Lemma set_submodel_same (key : string) (m : StateDict) (s : Trainer) :
  get_submodel key s = Some m → set_submodel key m s = s.
Proof.
  intros Hm. destruct s. unfold get_submodel in Hm. unfold set_submodel.
  cbn in *. repeat case_decide; simplify_eq; reflexivity.
Qed.

Lemma load_all_own (keys : list string) (saved_dict : gmap string StateDict)
    (self : Trainer) :
  (∀ k, k ∈ keys → ∃ m, get_submodel k self = Some m
                         ∧ saved_dict !! k = Some m) →
  load_all keys saved_dict (self, Ok ()) = (self, Ok ()).
Proof.
  induction keys as [|key keys IH]; intros Hkeys; [reflexivity|].
  destruct (Hkeys key) as (m & Hm & Hv); [by left|].
  cbn [load_all foldl]. unfold load_one at 2, getitem.
  rewrite Hm, Hv. unfold load_state_dict_strict, load_state_dict.
  rewrite decide_True by reflexivity.
  rewrite (set_submodel_same key m self Hm).
  apply IH. intros k Hk. apply Hkeys. by right.
Qed.

(** X2.  Saving and loading back at once: for a trainer that has a discount
    model, [get_save_dict] succeeds with exactly the seven keys of the
    bundle, and loading that bundle into the same trainer succeeds, every
    entry passing the strict check, and leaves the trainer as it was. *)
Theorem checkpoint_self_round_trip (self : Trainer) :
  is_Some (DiscountModel self) →
  ∃ saved,
    get_save_dict self = Ok saved
    ∧ dom saved = list_to_set load_order
    ∧ (∀ k, k ∈ load_order → entry_fits self saved k)
    ∧ load_save_dict self saved = (self, Ok ()).
Proof.
  intros [dm Hdm].
  destruct (get_save_dict_lookup self dm Hdm) as (saved & Hsave & Hlook & Hdom).
  assert (Hown : ∀ k, k ∈ load_order →
            ∃ m, get_submodel k self = Some m ∧ saved !! k = Some m).
  { intros k Hk.
    destruct (load_order_attrs self k) as [m Hm]; [by eexists | done |].
    exists m. split; [done|]. by rewrite (Hlook k Hk). }
  exists saved. repeat split; try done.
  - intros k Hk. destruct (Hown k Hk) as (m & Hm & Hv).
    exists m, m. repeat split; done.
  - rewrite load_save_dict_fold. by apply load_all_own.
Qed.

(** X3.  A checkpoint load, complete or stopped at a missing key, changes
    parameter values only: the hyper-parameters, module lists, optimisers
    and gradient flags stay as they were, and the target-value network is
    never touched, so loading does not refresh a fixed target. *)
Theorem load_save_dict_frame (self : Trainer)
    (saved_dict : gmap string StateDict) :
  configuration (fst (load_save_dict self saved_dict)) = configuration self
  ∧ TargetValueModel (fst (load_save_dict self saved_dict))
    = TargetValueModel self.
Proof.
  rewrite load_save_dict_fold.
  exact (load_all_frame load_order saved_dict (self, Ok ())).
Qed.

Lemma load_one_agree (key : string) (d1 d2 : gmap string StateDict)
    (st : Trainer * result unit) :
  d1 !! key = d2 !! key → load_one key d1 st = load_one key d2 st.
Proof.
  intros Heq. unfold load_one, getitem. by rewrite Heq.
Qed.

Lemma load_all_agree (keys : list string) (d1 d2 : gmap string StateDict) :
  (∀ k, k ∈ keys → d1 !! k = d2 !! k) →
  ∀ st, load_all keys d1 st = load_all keys d2 st.
Proof.
  induction keys as [|k keys IH]; intros Hagree st; [done|].
  cbn [load_all foldl].
  rewrite (load_one_agree k d1 d2 st) by (apply Hagree; by left).
  apply IH. intros k' Hk'. apply Hagree. by right.
Qed.

(** X4.  [load_save_dict] reads the seven keys of the bundle and nothing
    else: two saved dictionaries that agree on them give the same trainer
    and the same outcome, so extra entries are silently ignored. *)
Theorem load_save_dict_reads_seven_keys (self : Trainer)
    (d1 d2 : gmap string StateDict) :
  (∀ k, k ∈ load_order → d1 !! k = d2 !! k) →
  load_save_dict self d1 = load_save_dict self d2.
Proof.
  intros Hagree. rewrite !load_save_dict_fold. by apply load_all_agree.
Qed.

(** X5.  In every reachable trainer the three optimisers split the
    parameters between them: a sub-model exists exactly when one of the
    optimisers steps it, and no sub-model is stepped by two of them.  The
    target-value network, when there is one, belongs to the value
    optimiser. *)
Theorem optimizers_partition_modules (self : Trainer) :
  reachable self →
  let world := optimizer_params (model_optimizer self) in
  let actor := optimizer_params (actor_optimizer self) in
  let value := optimizer_params (value_optimizer self) in
  (∀ m, is_Some (get_module m self) ↔ m ∈ world ∨ m ∈ actor ∨ m ∈ value)
  ∧ (∀ m, ¬ (m ∈ world ∧ m ∈ actor) ∧ ¬ (m ∈ world ∧ m ∈ value)
          ∧ ¬ (m ∈ actor ∧ m ∈ value))
  ∧ (is_Some (TargetValueModel self) → pTargetValueModel ∈ value).
Proof.
  intros Hreach.
  destruct (reachable_is_well_formed self Hreach)
    as (Hdm & Htv & Hw & Ha & Hv & _ & Hmo & Hao & Hvo & _).
  rewrite Hmo, Hao, Hvo, Hw, Ha, Hv. cbn [optimizer_params adam_params].
  destruct (use_fixed_target self) eqn:Hfix.
  - assert (Ht : is_Some (TargetValueModel self)) by by apply Htv.
    split; [|split].
    + intros m. split.
      * intros _. destruct m; set_solver.
      * intros _. destruct m; cbn; first [by eexists | done].
    + intros m. destruct m; set_solver.
    + intros _. set_solver.
  - assert (Ht : ¬ is_Some (TargetValueModel self)).
    { intros H. apply Htv in H. discriminate. }
    split; [|split].
    + intros m. split.
      * intros Hm. destruct m; set_solver.
      * intros Hm. destruct m; cbn; first [by eexists | done | set_solver].
    + intros m. destruct m; set_solver.
    + intros H. by destruct Ht.
Qed.

(** X6.  On a reachable trainer [update_target] fails with an attribute
    error on [TargetValueModel] exactly when the trainer was built without
    a fixed target, and then changes nothing.  When it succeeds it changes
    the target-value network only, and calling it again gives the same
    trainer. *)
Theorem update_target_effect (self : Trainer) :
  reachable self →
  (use_fixed_target self = false →
   update_target self = Raise (AttributeError "TargetValueModel"))
  ∧ (use_fixed_target self = true →
     ∃ self', update_target self = Ok self'
              ∧ (∀ m, m ≠ pTargetValueModel →
                      get_module m self' = get_module m self)
              ∧ configuration self' = configuration self
              ∧ update_target self' = Ok self').
Proof.
  intros Hreach.
  destruct (reachable_is_well_formed self Hreach) as (_ & Htv & _).
  split; intros Hfix.
  - unfold update_target.
    destruct (TargetValueModel self) as [t|] eqn:Ht; [|reflexivity].
    assert (Hon : use_fixed_target self = true) by (apply Htv; by eexists).
    congruence.
  - destruct (proj2 Htv Hfix) as [t Ht].
    unfold update_target. rewrite Ht. cbn.
    eexists. split; [reflexivity|]. split; [|split].
    + intros m Hm. by destruct m.
    + unfold configuration. cbn. by rewrite Ht.
    + reflexivity.
Qed.

(** ** Seed episodes *)

Lemma run_episode_appends {E} (env : Environment E) (fuel : nat) :
  ∀ (e : E) (s : vec) (buffer : list Transition) e' buffer',
    run_episode env fuel e s buffer = Some (e', buffer') →
    ∃ added, buffer' = buffer ++ added
             ∧ length (List.filter tr_done added) = 1%nat
             ∧ Forall well_labelled added.
Proof.
  induction fuel as [|fuel IH]; intros e s buffer e' buffer' Hrun;
    [discriminate|].
  cbn [run_episode] in Hrun.
  destruct (env_sample env e) as [a e1].
  destruct (env_step env e1 a) as [[[ns r] done] e2].
  destruct done.
  - injection Hrun as <- <-. eexists. split; [reflexivity|].
    split; [reflexivity|]. constructor; [|constructor].
    unfold well_labelled. cbn. split; [by eexists | done].
  - destruct (IH _ _ _ _ _ Hrun) as (added & -> & Hcount & Hall).
    eexists (_ :: added). split; [by rewrite <- app_assoc|].
    split; [exact Hcount|]. constructor; [|exact Hall].
    unfold well_labelled. cbn. split; [done | by intros [? ?]].
Qed.

(** X7.  [collect_seed_episodes] only ever appends to the replay buffer.
    When it returns, it has added exactly [seed_episodes] terminal
    transitions, one closing each episode, and a transition carries the
    next observation exactly when it is terminal. *)
Theorem collect_seed_episodes_appends {E} (env : Environment E) (fuel : nat)
    (self : Trainer) (e e' : E) (buffer buffer' : list Transition) :
  collect_seed_episodes env fuel self e buffer = Some (e', buffer') →
  ∃ added, buffer' = buffer ++ added
           ∧ length (List.filter tr_done added) = seed_episodes self
           ∧ Forall well_labelled added.
Proof.
  unfold collect_seed_episodes. generalize (seed_episodes self) as n.
  intros n. revert e buffer.
  induction n as [|n IH]; intros e buffer Hrun.
  - injection Hrun as <- <-. exists []. by rewrite app_nil_r.
  - cbn [run_episodes] in Hrun.
    destruct (env_reset env e) as [s e1].
    destruct (run_episode env fuel e1 s buffer) as [[e2 buffer2]|] eqn:Hep;
      [|discriminate].
    destruct (run_episode_appends env fuel _ _ _ _ _ Hep)
      as (added1 & -> & Hc1 & Ha1).
    destruct (IH _ _ Hrun) as (added2 & -> & Hc2 & Ha2).
    exists (added1 ++ added2). split; [by rewrite app_assoc|]. split.
    + rewrite List.filter_app, length_app, Hc1, Hc2. reflexivity.
    + by apply Forall_app.
Qed.

Lemma run_episode_terminates {E} (env : Environment E) (limit : E → nat)
    (fuel : nat) :
  episodes_bounded env limit →
  ∀ (e : E) (s : vec) (buffer : list Transition),
    (limit e < fuel)%nat →
    is_Some (run_episode env fuel e s buffer).
Proof.
  intros [Hsample Hstep].
  induction fuel as [|fuel IH]; intros e s buffer Hlim; [lia|].
  cbn [run_episode].
  pose proof (Hsample e) as Hs.
  destruct (env_sample env e) as [a e1]. cbn in Hs.
  pose proof (Hstep e1 a) as Hst.
  destruct (env_step env e1 a) as [[[ns r] done] e2].
  destruct done; [by eexists|].
  apply IH. specialize (Hst eq_refl). lia.
Qed.

(** X8.  If a step that does not end the episode lowers a bound on the
    environment, and every reset leaves that bound below the fuel, then
    [collect_seed_episodes] runs all its episodes to the end and returns. *)
Theorem collect_seed_episodes_terminates {E} (env : Environment E)
    (limit : E → nat) (fuel : nat) (self : Trainer) (e : E)
    (buffer : list Transition) :
  episodes_bounded env limit →
  (∀ e0, (limit (snd (env_reset env e0)) < fuel)%nat) →
  is_Some (collect_seed_episodes env fuel self e buffer).
Proof.
  intros Hb Hreset. unfold collect_seed_episodes.
  generalize (seed_episodes self) as n. intros n. revert e buffer.
  induction n as [|n IH]; intros e buffer; [by eexists|].
  cbn [run_episodes].
  pose proof (Hreset e) as Hr.
  destruct (env_reset env e) as [s e1]. cbn in Hr.
  destruct (run_episode_terminates env limit fuel Hb e1 s buffer Hr)
    as [[e2 buffer2] Hep].
  rewrite Hep. apply IH.
Qed.

Lemma run_episode_endless {E} (env : Environment E) (fuel : nat) :
  (∀ e a, snd (fst (env_step env e a)) = false) →
  ∀ (e : E) (s : vec) (buffer : list Transition),
    run_episode env fuel e s buffer = None.
Proof.
  intros Hnever. induction fuel as [|fuel IH]; intros e s buffer; [done|].
  cbn [run_episode].
  destruct (env_sample env e) as [a e1].
  pose proof (Hnever e1 a) as Hstep.
  destruct (env_step env e1 a) as [[[ns r] done] e2]. cbn in Hstep.
  subst done. apply IH.
Qed.

(** X17.  If the environment never reports the end of an episode, a call
    of [collect_seed_episodes] that has at least one episode to collect
    does not return, whatever the number of steps it is given. *)
Theorem collect_seed_episodes_diverges {E} (env : Environment E)
    (self : Trainer) (e : E) (buffer : list Transition) :
  (∀ e0 a, snd (fst (env_step env e0 a)) = false) →
  seed_episodes self ≠ 0%nat →
  ∀ fuel, collect_seed_episodes env fuel self e buffer = None.
Proof.
  intros Hnever Hn fuel. unfold collect_seed_episodes.
  destruct (seed_episodes self) as [|n]; [done|].
  cbn [run_episodes]. destruct (env_reset env e) as [s e1].
  by rewrite run_episode_endless.
Qed.

(** ** The theorems at the concrete instance *)

Abbreviation toy_imagine := (imagine toy_rollout_imagination).

Abbreviation toy_imagined_reward_value :=
  (imagined_reward_value toy_RewardDecoder_forward toy_ValueModel_forward).

Abbreviation toy_imagined_discount :=
  (imagined_discount toy_DiscountModel_forward).

Abbreviation toy_actorcritc_loss :=
  (actorcritc_loss toy_RewardDecoder_forward toy_DiscountModel_forward
                   toy_ValueModel_forward toy_rollout_imagination).

Abbreviation toy_representation_loss :=
  (representation_loss toy_ObsEncoder_forward toy_ObsDecoder_forward
                       toy_RewardDecoder_forward toy_DiscountModel_forward
                       toy_init_rssm_state toy_rollout_observation
                       toy_kl_divergence).

Ltac qc_eval := apply Qc_is_canon; vm_compute; reflexivity.

Ltac toy_shape := split; [reflexivity | repeat constructor].

Lemma balanced_kl_half_equals_plain_witness :
  data (snd (_kl_loss toy_kl_divergence (toy_trainer false true)
                      toy_prior toy_posterior))
  = data (snd (_kl_loss toy_kl_divergence (toy_trainer false false)
                        toy_prior toy_posterior)).
Proof. apply balanced_kl_half_equals_plain; reflexivity. Defined.

Lemma imagined_reward_and_value_witness :
  ∃ imag_reward imag_value,
    toy_imagined_reward_value (toy_trainer true false)
      (fst (toy_imagine (toy_trainer true false) toy_posterior))
    = Ok (imag_reward, imag_value)
    ∧ at2 (data imag_reward) 0 1 = Some (q 1 1)
    ∧ at2 (data imag_value) 0 1 = Some (q 0 1).
Proof.
  destruct (imagined_reward_and_value
              toy_RewardDecoder_forward toy_ValueModel_forward
              (toy_trainer true false)
              (fst (toy_imagine (toy_trainer true false) toy_posterior))
              (toy_fresh pValueModel) eq_refl)
    as (r & v & Hrun & Hat & _).
  exists r, v. split; [exact Hrun|].
  destruct (Hat 0%nat 1%nat [q 0 1; q 2 1] eq_refl) as [Hr Hv].
  split; [rewrite Hr | rewrite Hv]; f_equal; qc_eval.
Defined.

Lemma actor_loss_discounted_sum_witness :
  ∃ actor_loss value_loss,
    toy_actorcritc_loss (toy_trainer false false) toy_posterior
    = Ok (actor_loss, value_loss)
    ∧ data actor_loss = q (-1001) 1000.
Proof.
  destruct (actor_loss_discounted_sum
              toy_RewardDecoder_forward toy_DiscountModel_forward
              toy_ValueModel_forward toy_rollout_imagination
              (toy_trainer false false) toy_posterior _ _
              (toy_fresh pDiscountModel) (toy_fresh pValueModel) 1 2 eq_refl)
    as (r & v & d & a & vl & Hrv & Hd & Hrun & _ & _ & Ha);
    [toy_shape | toy_shape | reflexivity | reflexivity |].
  exists a, vl. split; [exact Hrun|].
  rewrite Ha.
  vm_compute in Hrv. injection Hrv as <- <-.
  vm_compute in Hd. injection Hd as <-.
  qc_eval.
Defined.

Lemma reward_discount_one_step_behind_witness :
  ∃ model_loss div obs_loss reward_loss pcont_loss prior_dist post_dist
    posterior,
    toy_representation_loss (toy_trainer false false) toy_obs toy_actions
                            toy_rewards toy_nonterms
    = Ok (model_loss, div, obs_loss, reward_loss, pcont_loss,
          prior_dist, post_dist, posterior)
    ∧ data obs_loss = q 15 4
    ∧ data reward_loss = q 1 4
    ∧ data pcont_loss = q 3 2.
Proof.
  destruct (reward_discount_one_step_behind
              toy_ObsEncoder_forward toy_ObsDecoder_forward
              toy_RewardDecoder_forward toy_DiscountModel_forward
              toy_init_rssm_state toy_rollout_observation toy_kl_divergence
              (toy_trainer false false) toy_obs toy_actions toy_rewards
              toy_nonterms 2 2 _ _ (toy_fresh pDiscountModel)
              eq_refl eq_refl)
    as (ml & dv & ol & rl & pl & pd & qd & Hrun & Hobs & Hrew & Hpc);
    [toy_shape | toy_shape | toy_shape | toy_shape |].
  eexists ml, dv, ol, rl, pl, pd, qd, _. split; [exact Hrun|].
  rewrite Hobs, Hrew, Hpc.
  repeat split; qc_eval.
Defined.

Lemma model_loss_weighted_sum_witness :
  ∃ model_loss div obs_loss reward_loss pcont_loss prior_dist post_dist
    posterior,
    toy_representation_loss (toy_trainer false false) toy_obs toy_actions
                            toy_rewards toy_nonterms
    = Ok (model_loss, div, obs_loss, reward_loss, pcont_loss,
          prior_dist, post_dist, posterior)
    ∧ data model_loss
      = kl_scale (toy_trainer false false) * data div + data reward_loss
        + data obs_loss
        + pcont_scale (toy_trainer false false) * data pcont_loss.
Proof.
  destruct (model_loss_weighted_sum
              toy_ObsEncoder_forward toy_ObsDecoder_forward
              toy_RewardDecoder_forward toy_DiscountModel_forward
              toy_init_rssm_state toy_rollout_observation toy_kl_divergence
              (toy_trainer false false) toy_obs toy_actions toy_rewards
              toy_nonterms (toy_fresh pDiscountModel) eq_refl)
    as (ml & dv & ol & rl & pl & pd & qd & pr & po & od & rd & cd
        & Hrun & _ & _ & _ & Hml & _).
  exists ml, dv, ol, rl, pl, pd, qd, po. by split.
Defined.

(** C1.  At the concrete instance (two samples, one imagined step, reward
    1, value 0) [actorcritc_loss] returns the value loss [1]: the sum of
    the two terms [0.5 * (1 * (1 - 0)) ^ 2].  Their mean, which is the mean
    squared error, is [1/2]; the [torch.mean] of the program is applied
    after [.sum()], to a single number.  No gradient reaches anything but
    the value network. *)
Theorem value_loss_is_sum_not_mean :
  ∃ imag_modelstates policy_entropy imag_reward imag_value discount_arr
    actor_loss value_loss,
    let self := toy_trainer false false in
    let weights := discount_weights discount_arr in
    let targets := lambda_returns_of self imag_reward imag_value discount_arr in
    toy_imagine self toy_posterior = (imag_modelstates, policy_entropy)
    ∧ toy_imagined_reward_value self imag_modelstates
      = Ok (imag_reward, imag_value)
    ∧ toy_imagined_discount self imag_modelstates = Ok discount_arr
    ∧ toy_actorcritc_loss self toy_posterior = Ok (actor_loss, value_loss)
    ∧ data weights = [[q 1 1; q 1 1]]
    ∧ data targets = [[q 1 1; q 1 1]]
    ∧ data value_loss = q 1 1
    ∧ value_loss_mean_squared_error toy_ValueModel_forward self
        (data imag_modelstates) (data weights) (data targets) = q 1 2
    ∧ grad_deps value_loss = {[pValueModel]}.
Proof.
  eexists _, _, _, _, _, _, _. cbn zeta.
  split; [reflexivity|]. split; [reflexivity|]. split; [reflexivity|].
  split; [reflexivity|].
  split; [vm_compute; reflexivity|].
  split; [vm_compute; reflexivity|].
  split; [qc_eval|]. split; [qc_eval|].
  vm_compute. reflexivity.
Qed.

Lemma discount_flag_off_counterexample :
  cfg_use_discount_model (toy_config true false false) = false
  ∧ __init__ toy_fresh 1 (toy_config true false false) true
    = Raise NotImplementedError
  ∧ ¬ (∀ fresh action_size_ cfg pixels_,
         cfg_use_discount_model cfg = false →
         ∃ attr, __init__ fresh action_size_ cfg pixels_
                 = Raise (AttributeError attr)).
Proof.
  split; [reflexivity|]. split; [reflexivity|].
  intros Hall.
  destruct (Hall toy_fresh 1%nat (toy_config true false false) true eq_refl)
    as [attr Hattr].
  discriminate Hattr.
Qed.

Lemma discount_model_cannot_be_disabled_witness :
  __init__ toy_fresh 1 (toy_config true false false) false
  = Raise (AttributeError "DiscountModel")
  ∧ cfg_use_discount_model (toy_config true true false) = true
  ∧ is_Some (DiscountModel (toy_trainer true false)).
Proof.
  split.
  - apply (proj1 (discount_model_cannot_be_disabled
                    toy_fresh 1 (toy_config true false false) false)).
    reflexivity.
  - apply (proj2 (discount_model_cannot_be_disabled
                    toy_fresh 1 (toy_config true true false) false)).
    reflexivity.
Defined.

Lemma update_target_hard_copy_witness :
  target_equals_value (toy_trainer true false)
  ∧ ∃ self', update_target
               (set_TargetValueModel (Some (toy_fresh pTargetValueModel))
                                     (toy_trainer true false))
             = Ok self'
             ∧ target_equals_value self'.
Proof.
  destruct update_target_hard_copy as (Hruns & Hcopy & Hinit).
  split.
  - apply (Hinit toy_fresh 1%nat (toy_config true true false) false);
      reflexivity.
  - destruct (Hruns (set_TargetValueModel (Some (toy_fresh pTargetValueModel))
                                          (toy_trainer true false))
                    (toy_fresh pTargetValueModel) eq_refl)
      as (self' & Hrun & _).
    exists self'. split; [exact Hrun|]. exact (Hcopy _ _ Hrun).
Defined.

Lemma load_save_dict_not_atomic_witness :
  ∃ self',
    load_save_dict (toy_trainer false false) toy_partial_checkpoint
    = (self', Raise (KeyError "RewardDecoder"))
    ∧ RSSM self' = {[ "weight" := [q 2 1] ]}
    ∧ ObsEncoder self' = {[ "weight" := [q 3 1] ]}
    ∧ ObsDecoder self' = {[ "weight" := [q 4 1] ]}
    ∧ RewardDecoder self' = RewardDecoder (toy_trainer false false)
    ∧ ValueModel self' = ValueModel (toy_trainer false false).
Proof.
  destruct (proj1 (proj2 (load_save_dict_not_atomic (toy_trainer false false)
                     toy_partial_checkpoint (mk_is_Some _ _ eq_refl)))
                  ["RSSM"; "ObsEncoder"; "ObsDecoder"] "RewardDecoder"
                  ["ActionModel"; "ValueModel"; "DiscountModel"] eq_refl)
    as (self' & Hrun & Hloaded & Hkept).
  - intros k Hk.
    repeat (apply elem_of_cons in Hk as [->|Hk];
            [eexists _, _; repeat split; vm_compute; reflexivity|]).
    by apply elem_of_nil in Hk.
  - reflexivity.
  - exists self'. split; [exact Hrun|].
    pose proof (Hloaded "RSSM" ltac:(set_solver)) as H1.
    pose proof (Hloaded "ObsEncoder" ltac:(set_solver)) as H2.
    pose proof (Hloaded "ObsDecoder" ltac:(set_solver)) as H3.
    pose proof (Hkept "RewardDecoder" ltac:(set_solver)) as H4.
    pose proof (Hkept "ValueModel" ltac:(set_solver)) as H5.
    cbv [get_submodel] in H1, H2, H3, H4, H5. cbn in H1, H2, H3, H4, H5.
    injection H1 as ->. injection H2 as ->. injection H3 as ->.
    injection H4 as ->. injection H5 as ->.
    repeat split.
Defined.

Lemma load_save_dict_unfit_counterexample :
  is_Some (toy_bogus_checkpoint !! "RSSM")
  ∧ toy_bogus_checkpoint !! "ObsEncoder" = None
  ∧ snd (load_save_dict (toy_trainer false false) toy_bogus_checkpoint)
    = Raise (RuntimeError "RSSM")
  ∧ RSSM (fst (load_save_dict (toy_trainer false false) toy_bogus_checkpoint))
    = RSSM (toy_trainer false false)
  ∧ ¬ (∀ self saved_dict loaded missing rest,
         is_Some (DiscountModel self) →
         load_order = loaded ++ missing :: rest →
         (∀ k, k ∈ loaded → is_Some (saved_dict !! k)) →
         saved_dict !! missing = None →
         ∃ self', load_save_dict self saved_dict
                  = (self', Raise (KeyError missing))
                  ∧ ∀ k, k ∈ loaded →
                      get_submodel k self' = saved_dict !! k).
Proof.
  assert (Hrun : snd (load_save_dict (toy_trainer false false)
                                     toy_bogus_checkpoint)
                 = Raise (RuntimeError "RSSM")).
  { vm_compute. reflexivity. }
  split; [by eexists|]. split; [reflexivity|]. split; [exact Hrun|].
  split; [vm_compute; reflexivity|].
  intros Hall.
  destruct (Hall (toy_trainer false false) toy_bogus_checkpoint
                 ["RSSM"] "ObsEncoder"
                 ["ObsDecoder"; "RewardDecoder"; "ActionModel"; "ValueModel";
                  "DiscountModel"])
    as (self' & Hkey & _).
  - by eexists.
  - reflexivity.
  - intros k Hk. apply elem_of_cons in Hk as [->|Hk]; [by eexists|].
    by apply elem_of_nil in Hk.
  - reflexivity.
  - rewrite Hkey in Hrun. discriminate Hrun.
Qed.

(** ** The further properties at the concrete instance *)

Abbreviation toy_train_batch :=
  (train_batch toy_ObsEncoder_forward toy_ObsDecoder_forward
               toy_RewardDecoder_forward toy_DiscountModel_forward
               toy_ValueModel_forward toy_init_rssm_state
               toy_rollout_observation toy_rollout_imagination
               toy_kl_divergence toy_buffer_sample toy_adam_update
               toy_dist_entropy).

Lemma toy_trainer_reachable (fixed_target kl_balancing : bool) :
  reachable (toy_trainer fixed_target kl_balancing).
Proof.
  eapply reachable_init. apply toy_trainer_constructed.
Defined.

Lemma toy_trainer_well_formed (fixed_target kl_balancing : bool) :
  well_formed (toy_trainer fixed_target kl_balancing).
Proof.
  unfold well_formed.
  destruct fixed_target, kl_balancing; cbn;
    repeat split; try done; try (by eexists); by intros [? ?].
Defined.

Lemma construction_invariant_witness :
  well_formed
    (fst (load_save_dict (toy_trainer true false) toy_partial_checkpoint)).
Proof.
  apply construction_invariant.
  apply reachable_load. apply toy_trainer_reachable.
Defined.

Lemma checkpoint_self_round_trip_witness :
  ∃ saved,
    get_save_dict (toy_trainer true false) = Ok saved
    ∧ saved !! "RSSM" = Some (toy_fresh pRSSM)
    ∧ load_save_dict (toy_trainer true false) saved
      = (toy_trainer true false, Ok ()).
Proof.
  destruct (checkpoint_self_round_trip (toy_trainer true false))
    as (saved & Hsave & _ & _ & Hload).
  - by eexists.
  - exists saved. split; [exact Hsave|]. split; [|exact Hload].
    injection Hsave as <-. reflexivity.
Defined.

Lemma load_save_dict_reads_seven_keys_witness :
  load_save_dict (toy_trainer true false) toy_checkpoint_with_extra
  = load_save_dict (toy_trainer true false) toy_partial_checkpoint.
Proof.
  apply load_save_dict_reads_seven_keys.
  intros k Hk. unfold toy_checkpoint_with_extra.
  apply lookup_insert_ne. intros <-. unfold load_order in Hk.
  repeat (apply elem_of_cons in Hk as [Hk|Hk]; [discriminate Hk|]).
  by apply elem_of_nil in Hk.
Defined.

Lemma optimizers_partition_modules_witness :
  pTargetValueModel
  ∈ optimizer_params (value_optimizer (toy_trainer true false))
  ∧ ¬ (pActionModel
       ∈ optimizer_params (model_optimizer (toy_trainer true false))
       ∧ pActionModel
         ∈ optimizer_params (actor_optimizer (toy_trainer true false))).
Proof.
  destruct (optimizers_partition_modules (toy_trainer true false)
              (toy_trainer_reachable true false)) as (_ & Hdisj & Htarget).
  split.
  - apply Htarget. by eexists.
  - exact (proj1 (Hdisj pActionModel)).
Defined.

Lemma update_target_effect_witness :
  update_target (toy_trainer false false)
  = Raise (AttributeError "TargetValueModel")
  ∧ ∃ self', update_target (toy_trainer true false) = Ok self'
             ∧ update_target self' = Ok self'.
Proof.
  split.
  - apply (proj1 (update_target_effect (toy_trainer false false)
                    (toy_trainer_reachable false false))).
    reflexivity.
  - destruct (proj2 (update_target_effect (toy_trainer true false)
                       (toy_trainer_reachable true false)) eq_refl)
      as (self' & Hrun & _ & _ & Hagain).
    by exists self'.
Defined.

Lemma collect_seed_episodes_appends_witness :
  ∃ e' added,
    collect_seed_episodes toy_env 3 (toy_trainer false false) 0%nat [] 
    = Some (e', added)
    ∧ length (List.filter tr_done added) = 1%nat
    ∧ length added = 2%nat.
Proof.
  destruct (collect_seed_episodes toy_env 3 (toy_trainer false false) 0%nat [])
    as [[e' buffer']|] eqn:Hrun; [|vm_compute in Hrun; discriminate Hrun].
  destruct (collect_seed_episodes_appends toy_env 3 (toy_trainer false false)
              0%nat e' [] buffer' Hrun) as (added & Hbuf & Hcount & _).
  cbn in Hbuf. subst buffer'. exists e', added.
  split; [reflexivity|]. split; [exact Hcount|].
  vm_compute in Hrun. by injection Hrun as _ <-.
Defined.

Lemma toy_env_bounded : episodes_bounded toy_env id.
Proof.
  split; [done|]. intros e a. cbn. intros Hdone.
  apply Nat.eqb_neq in Hdone. unfold id. lia.
Defined.

Lemma collect_seed_episodes_terminates_witness :
  is_Some (collect_seed_episodes toy_env 3 (toy_trainer false false) 5%nat []).
Proof.
  apply (collect_seed_episodes_terminates toy_env id).
  - exact toy_env_bounded.
  - intros e0. cbn. unfold id. lia.
Defined.

Lemma collect_seed_episodes_diverges_witness :
  collect_seed_episodes toy_endless_env 1000 (toy_trainer false false) 0%nat []
  = None.
Proof.
  apply collect_seed_episodes_diverges; [reflexivity | discriminate].
Defined.

Lemma losses_attribute_lookups_witness :
  (toy_representation_loss (toy_trainer true true) toy_obs toy_actions
                           toy_rewards toy_nonterms
   ≠ Raise (AttributeError "DiscountModel")
   ∧ toy_actorcritc_loss (toy_trainer true true) toy_posterior
     ≠ Raise (AttributeError "TargetValueModel"))
  ∧ ∀ out,
      toy_actorcritc_loss (set_TargetValueModel None (toy_trainer true true))
                          toy_posterior
      ≠ Ok out.
Proof.
  pose proof (losses_attribute_lookups
                toy_ObsEncoder_forward toy_ObsDecoder_forward
                toy_RewardDecoder_forward toy_DiscountModel_forward
                toy_ValueModel_forward toy_init_rssm_state
                toy_rollout_observation toy_rollout_imagination
                toy_kl_divergence (toy_trainer true true) toy_obs toy_actions
                toy_rewards toy_nonterms toy_posterior) as [Hwf _].
  pose proof (losses_attribute_lookups
                toy_ObsEncoder_forward toy_ObsDecoder_forward
                toy_RewardDecoder_forward toy_DiscountModel_forward
                toy_ValueModel_forward toy_init_rssm_state
                toy_rollout_observation toy_rollout_imagination
                toy_kl_divergence
                (set_TargetValueModel None (toy_trainer true true))
                toy_obs toy_actions toy_rewards toy_nonterms toy_posterior)
    as [_ Hnone].
  specialize (Hwf (toy_trainer_well_formed _ _)).
  split.
  - split; [exact (proj1 (Hwf "DiscountModel"))
           | exact (proj2 (Hwf "TargetValueModel"))].
  - exact (Hnone eq_refl eq_refl).
Defined.

Lemma actor_critic_gradient_isolation_witness :
  ∃ actor_loss value_loss,
    toy_actorcritc_loss (toy_trainer true false) toy_posterior
    = Ok (actor_loss, value_loss)
    ∧ grad_deps actor_loss = {[pActionModel]}
    ∧ grad_deps value_loss = {[pValueModel]}.
Proof.
  apply actor_critic_gradient_isolation. apply toy_trainer_well_formed.
Defined.

Lemma actorcritc_loss_reads_detached_batch_witness :
  toy_actorcritc_loss (toy_trainer false false) toy_posterior
  = toy_actorcritc_loss (toy_trainer false false) toy_posterior'.
Proof.
  apply actorcritc_loss_reads_detached_batch; [vm_compute; lia | reflexivity].
Defined.

Lemma value_loss_sum_of_terms_witness :
  ∃ actor_loss value_loss,
    toy_actorcritc_loss (toy_trainer false false) toy_posterior
    = Ok (actor_loss, value_loss)
    ∧ data value_loss = q 1 1.
Proof.
  destruct (value_loss_sum_of_terms
              toy_RewardDecoder_forward toy_DiscountModel_forward
              toy_ValueModel_forward toy_rollout_imagination
              (toy_trainer false false) toy_posterior _ _
              (toy_fresh pDiscountModel) (toy_fresh pValueModel) 1 2 eq_refl)
    as (r & v & d & a & vl & Hrv & Hd & Hrun & Hsum & _);
    [toy_shape | reflexivity | reflexivity |].
  exists a, vl. split; [exact Hrun|].
  rewrite Hsum.
  vm_compute in Hrv. injection Hrv as <- <-.
  vm_compute in Hd. injection Hd as <-.
  qc_eval.
Defined.

Lemma model_loss_gradient_witness :
  ∃ model_loss div obs_loss reward_loss pcont_loss prior_dist post_dist
    posterior,
    toy_representation_loss (toy_trainer false true) toy_obs toy_actions
                            toy_rewards toy_nonterms
    = Ok (model_loss, div, obs_loss, reward_loss, pcont_loss,
          prior_dist, post_dist, posterior)
    ∧ pDiscountModel ∈ grad_deps model_loss
    ∧ pActionModel ∉ grad_deps model_loss.
Proof.
  destruct (model_loss_gradient
              toy_ObsEncoder_forward toy_ObsDecoder_forward
              toy_RewardDecoder_forward toy_DiscountModel_forward
              toy_init_rssm_state toy_rollout_observation toy_kl_divergence
              (toy_trainer false true) toy_obs toy_actions toy_rewards
              toy_nonterms (toy_trainer_well_formed false true))
    as (ml & dv & ol & rl & pl & pd & qd & post & Hrun & Hg & _).
  exists ml, dv, ol, rl, pl, pd, qd, post. split; [exact Hrun|].
  rewrite Hg. cbn. split; set_solver.
Defined.

Lemma train_batch_preserves_configuration_witness :
  ∃ self' st' train_metrics',
    toy_train_batch (toy_trainer true false) 0%nat 0%nat toy_metrics
    = Ok (self', st', 1%nat, train_metrics')
    ∧ configuration self' = configuration (toy_trainer true false)
    ∧ well_formed self'.
Proof.
  destruct (toy_train_batch (toy_trainer true false) 0%nat 0%nat toy_metrics)
    as [[[[self' st'] buffer'] m']|e] eqn:Hrun;
    [|vm_compute in Hrun; discriminate Hrun].
  destruct (train_batch_preserves_configuration
              toy_ObsEncoder_forward toy_ObsDecoder_forward
              toy_RewardDecoder_forward toy_DiscountModel_forward
              toy_ValueModel_forward toy_init_rssm_state
              toy_rollout_observation toy_rollout_imagination
              toy_kl_divergence toy_buffer_sample toy_adam_update
              toy_dist_entropy _ _ _ _ _ _ _ _ Hrun)
    as (Hc & -> & Hwf).
  exists self', st', m'. split; [reflexivity|]. split; [exact Hc|].
  apply Hwf. apply toy_trainer_well_formed.
Defined.

